(** * language_pipeline: sentence generation, flattening, speech synthesis
    and video assembly

  A shallow embedding of [gpt_langchain.py] and
  [text_to_speech_and_generate_video.py].  Python exceptions are the
  [Raise] results of an error monad; files written and external calls made
  are recorded in an explicit [world] that every effectful function
  threads. *)

From stdpp Require Import base gmap sets list strings pretty.
From Stdlib Require Import ZArith QArith Lia.

Local Open Scope Z_scope.

(** ** Python exceptions and results *)

Module Py.

Inductive exn : Type :=
| ValueError (msg : string)
| IndexError
| AttributeError
| ZeroDivisionError
| OSError (what : string)
| GoogleAPICallError (text : string)
| OutputParserException.

Inductive result (A : Type) : Type :=
| Ok (a : A)
| Raise (e : exn).
Arguments Ok {A} a.
Arguments Raise {A} e.

#[export] Instance result_ret : MRet result := fun A a => Ok a.
#[export] Instance result_bind : MBind result := fun A B f m =>
  match m with
  | Ok a => f a
  | Raise e => Raise e
  end.
#[export] Instance result_fmap : FMap result := fun A B f m =>
  match m with
  | Ok a => Ok (f a)
  | Raise e => Raise e
  end.

Definition is_Ok {A} (r : result A) : bool :=
  match r with Ok _ => true | Raise _ => false end.

(** [l[i]] for [0 <= i]: out of range is an [IndexError]. *)
Definition getitem {A} (l : list A) (i : nat) : result A :=
  match l !! i with
  | Some x => Ok x
  | None => Raise IndexError
  end.

(** A [for] loop that updates local variables [s] and stops at the first
    exception. *)
Fixpoint for_in {A S} (xs : list A) (body : S -> A -> result S) (s : S)
  : result S :=
  match xs with
  | [] => Ok s
  | x :: xs' =>
      match body s x with
      | Ok s' => for_in xs' body s'
      | Raise e => Raise e
      end
  end.

End Py.
Export Py.

(** ** The table handed from stage to stage *)

Module Frame.

(** One row of the flat table: the four text columns. *)
Record Row : Type := mkRow {
  german_word : string;
  english_word : string;
  german_sentence : string;
  english_sentence : string
}.

Inductive column : Type :=
| c_english_word | c_german_word | c_english_sentence | c_german_sentence.

(** [row[column]] *)
Definition get (row : Row) (c : column) : string :=
  match c with
  | c_english_word => english_word row
  | c_german_word => german_word row
  | c_english_sentence => english_sentence row
  | c_german_sentence => german_sentence row
  end.

(** A DataFrame as [iterrows] sees it: index label and row, in order. *)
Definition DataFrame : Type := list (Z * Row).

(** [pd.DataFrame(rows)] and [pd.read_excel]: labels 0, 1, 2, ... *)
Definition RangeIndex (rows : list Row) : DataFrame :=
  imap (fun k row => (Z.of_nat k, row)) rows.

Definition values (df : DataFrame) : list Row := snd <$> df.

End Frame.

(** ** gpt_langchain.py *)

Module GptLangchain.

(** The dictionary the output parser returns: four keys, each a list. *)
Record output_dict : Type := mkDict {
  german_word : list string;
  english_word : list string;
  german_sentence : list string;
  english_sentence : list string
}.

(** A row of the vocabulary table read by [_upload_df]. *)
Record VocabularyEntry : Type := mkEntry {
  word : string;
  word_type : string;
  level : string
}.

Section SentenceGenerator.

(** The chat model and langchain's [StructuredOutputParser] are external:
    [format_messages] builds the prompt, [chat] is the call to the model,
    which returns the content of the response or raises (the call goes over
    the network and nothing around it catches), [parse] returns the
    dictionary or raises [OutputParserException]. *)
Variable format_messages : string -> string -> string -> string.
Variable chat : string -> result string.
Variable parse : string -> result output_dict.

Definition _get_api_response (word wordtype level : string)
  : result output_dict :=
  let translation := format_messages word wordtype level in
  response ← chat translation;
  output_dict ← parse response;
  Ok output_dict.

Definition _get_api_responses_for_dataframe (df : list VocabularyEntry)
  : result (list output_dict) :=
  for_in df (fun results row =>
    output_dict ← _get_api_response (word row) (word_type row) (level row);
    Ok (results ++ [output_dict])) [].

(** The body of the inner loop: one [flat_data.append({...})]. *)
Definition append_entry (item : output_dict) (flat_data : list Frame.Row)
    (i : nat) : result (list Frame.Row) :=
  gw ← getitem (german_word item) i;
  ew ← getitem (english_word item) i;
  gs ← getitem (german_sentence item) i;
  es ← getitem (english_sentence item) i;
  Ok (flat_data ++ [Frame.mkRow gw ew gs es]).

(** The inner loop over [range(num_entries)]. *)
Definition append_item (flat_data : list Frame.Row) (item : output_dict)
  : result (list Frame.Row) :=
  let num_entries := length (german_word item) in
  for_in (seq 0 num_entries) (append_entry item) flat_data.

Definition _create_dataframe_from_list_of_dict
    (list_of_dicts : list output_dict) : result Frame.DataFrame :=
  flat_data ← for_in list_of_dicts append_item [];
  Ok (Frame.RangeIndex flat_data).

Definition process_data (df : list VocabularyEntry)
  : result Frame.DataFrame :=
  list_of_dicts ← _get_api_responses_for_dataframe df;
  _create_dataframe_from_list_of_dict list_of_dicts.

End SentenceGenerator.

(** The record invariant of the data model: four lists of one length. *)
Definition equal_lengths (item : output_dict) : Prop :=
  length (english_word item) = length (german_word item) /\
  length (german_sentence item) = length (german_word item) /\
  length (english_sentence item) = length (german_word item).

(** What the loop needs to get through an item: every other list reaches
    the last index of [german_word]. *)
Definition covers (item : output_dict) : bool :=
  bool_decide (length (german_word item) <= length (english_word item))%nat &&
  bool_decide (length (german_word item) <= length (german_sentence item))%nat &&
  bool_decide (length (german_word item) <= length (english_sentence item))%nat.

(** The rows of one item, meaning by meaning: the i-th element of each list. *)
Fixpoint rows_of_lists (gw ew gs es : list string) : list Frame.Row :=
  match gw, ew, gs, es with
  | g :: gw', e :: ew', s :: gs', t :: es' =>
      Frame.mkRow g e s t :: rows_of_lists gw' ew' gs' es'
  | _, _, _, _ => []
  end.

Definition rows_of (item : output_dict) : list Frame.Row :=
  rows_of_lists (german_word item) (english_word item)
                (german_sentence item) (english_sentence item).

(** Index [i] is inside all four lists of [item]. *)
Definition in_range (item : output_dict) (i : nat) : bool :=
  bool_decide (i < length (german_word item))%nat &&
  bool_decide (i < length (english_word item))%nat &&
  bool_decide (i < length (german_sentence item))%nat &&
  bool_decide (i < length (english_sentence item))%nat.

(** The row made of the [i]-th elements. *)
Definition row_at (item : output_dict) (i : nat) : Frame.Row :=
  Frame.mkRow (nth i (german_word item) "") (nth i (english_word item) "")
              (nth i (german_sentence item) "") (nth i (english_sentence item) "").

(** Stand-ins for the external services, for running the functions on
    concrete tables: the prompt is the word, the model echoes it, and the
    parser answers by the word. *)
Definition echo_prompt (word wordtype level : string) : string := word.

Definition echo_chat (prompt : string) : result string := Ok prompt.

Definition annehmen_short : output_dict :=
  mkDict ["annehmen"; "annehmen"] ["to accept"]
         ["Ich nehme an."; "Ich nehme es an."] ["I accept."; "I assume so."].

Definition gehen_long : output_dict :=
  mkDict ["gehen"] ["to go"; "to walk"] ["Ich gehe."] ["I go."].

Definition gehen_two : output_dict :=
  mkDict ["gehen"; "gehen"] ["to go"; "to work"]
         ["Ich gehe."; "Es geht."] ["I go."; "It works."].

Definition table_parse (response : string) : result output_dict :=
  if bool_decide (response = "annehmen") then Ok annehmen_short
  else if bool_decide (response = "gehen") then Ok gehen_two
  else if bool_decide (response = "") then Raise OutputParserException
  else Ok (mkDict [response] [response] [response] [response]).

End GptLangchain.

(** ** text_to_speech_and_generate_video.py *)

Module TextToSpeech.
Import Frame.

(** An [AudioSegment] is a sequence of pieces: silence of a given length, or
    the narration of a text in a language, as long as the service made it. *)
Inductive sound : Type :=
| Silence (ms : Z)
| Voice (language_code text : string) (ms : Z).

Abbreviation AudioSegment := (list sound).

Definition sound_ms (s : sound) : Z :=
  match s with
  | Silence ms => ms
  | Voice _ _ ms => ms
  end.

Definition len_ms (a : AudioSegment) : Z := foldr (fun s n => sound_ms s + n) 0 a.

(** moviepy's [AudioFileClip]: the file it was opened from and its duration
    in seconds. *)
Record AudioFileClip : Type := mkAudio {
  audio_file : string;
  duration : Q
}.

(** A [TextClip] after [set_duration]. *)
Record TextClip : Type := mkText {
  text : string;
  clip_duration : Q
}.

(** A concatenation of text clips: the overlays in playing order. *)
Definition VideoClip : Type := list TextClip.

(** A single text clip seen as a video clip. *)
Definition as_video (c : TextClip) : VideoClip := [c].

Definition concatenate_videoclips (clips : list VideoClip) : VideoClip :=
  concat clips.

(** What [write_videofile] writes: the overlays and the audio track. *)
Record VideoFile : Type := mkVideo {
  overlays : VideoClip;
  audio_track : list AudioFileClip
}.

(** The part of the outside world the converter touches. *)
Record world : Type := mkWorld {
  audio_files : gmap string AudioSegment;
  video_files : list (string * VideoFile);
  tts_calls : list (string * string)
}.

Definition M (A : Type) : Type := world -> world * result A.

#[export] Instance M_ret : MRet M := fun A a w => (w, Ok a).
#[export] Instance M_bind : MBind M := fun A B f m w =>
  match m w with
  | (w', Ok a) => f a w'
  | (w', Raise e) => (w', Raise e)
  end.

Definition raise {A} (e : exn) : M A := fun w => (w, Raise e).

Definition lift {A} (r : result A) : M A := fun w => (w, r).

(** A [for] loop over [xs] with local variables [s]. *)
Fixpoint for_each {A S} (xs : list A) (body : S -> A -> M S) (s : S) : M S :=
  match xs with
  | [] => mret s
  | x :: xs' => s' ← body s x; for_each xs' body s'
  end.

(** [enumerate(xs)] *)
Definition enumerate {A} (xs : list A) : list (Z * A) :=
  imap (fun k x => (Z.of_nat k, x)) xs.

Definition newline : string := String (Ascii.ascii_of_nat 10) EmptyString.

Definition order_t : Type := list (string * column).

Definition order_EN_DE : order_t :=
  [("en-US", c_english_word); ("de-DE", c_german_word);
   ("en-US", c_english_sentence); ("de-DE", c_german_sentence)].

Definition order_DE_EN : order_t :=
  [("de-DE", c_german_word); ("en-US", c_english_word);
   ("de-DE", c_german_sentence); ("en-US", c_english_sentence)].

(** [audio.export(filename)] *)
Definition export (filename : string) (audio : AudioSegment) : M unit :=
  fun w => (mkWorld (<[filename := audio]> (audio_files w)) (video_files w)
                    (tts_calls w), Ok tt).

(** [AudioFileClip(filename)]: a missing file is an [OSError]. *)
Definition open_AudioFileClip (filename : string) : M AudioFileClip :=
  fun w => match audio_files w !! filename with
           | Some a => (w, Ok (mkAudio filename (Qmake (len_ms a) 1000)))
           | None => (w, Raise (OSError filename))
           end.

(** [video.write_videofile(filename)]: the world records the writes in
    order; on disk a later write replaces a file of the same name. *)
Definition write_videofile (filename : string) (v : VideoFile) : M unit :=
  fun w => (mkWorld (audio_files w) (video_files w ++ [(filename, v)])
                    (tts_calls w), Ok tt).

Definition _add_silence (audio : AudioSegment) (duration : Z) : AudioSegment :=
  let silence := [Silence duration] in
  silence ++ audio ++ silence.

Definition msg_language_mode : string :=
  "Invalid language_mode. Should be 'EN_DE', 'DE_EN', or 'BOTH'.".
Definition msg_language_version : string :=
  "Invalid language_version. Should be 'EN_DE' or 'DE_EN'.".
Definition msg_slides_format : string :=
  "Invalid slides_format. Should be '2slides' or '4slides'.".

Definition _get_orders (language_mode : string) : result (list order_t) :=
  let orders := [order_EN_DE; order_DE_EN] in
  if bool_decide (language_mode ∉ ["EN_DE"; "DE_EN"; "BOTH"]) then
    Raise (ValueError msg_language_mode)
  else if bool_decide (language_mode = "EN_DE") then Ok [order_EN_DE]
  else if bool_decide (language_mode = "DE_EN") then Ok [order_DE_EN]
  else Ok orders.

(** The dictionary [orders] of [generate_video]. *)
Definition orders (language_version : string) : option order_t :=
  if bool_decide (language_version = "EN_DE") then Some order_EN_DE
  else if bool_decide (language_version = "DE_EN") then Some order_DE_EN
  else None.

(** The local variables of the loop of [generate_video]. *)
Record locals : Type := mkLocals {
  video_clips : list VideoClip;
  audio_clips : list AudioFileClip;
  word_count : Z;
  unique_words : gset string
}.

Definition fresh : locals := mkLocals [] [] 0 ∅.

Section Converter.

(** The cloud speech service: the length of the narration it returns for a
    text and a language code, or no answer when the call fails. *)
Variable synthesize_speech : string -> string -> option Z.

(** Whether ImageMagick renders a text; [TextClip] raises when it does not. *)
Variable renders : string -> bool.

Definition _synthesize_text (text language_code : string) : M AudioSegment :=
  fun w =>
    let w' := mkWorld (audio_files w) (video_files w)
                      (tts_calls w ++ [(text, language_code)]) in
    match synthesize_speech text language_code with
    | Some ms => (w', Ok [Voice language_code text ms])
    | None => (w', Raise (GoogleAPICallError text))
    end.

(** The body of the innermost loop of [generate_audio]: [combined_audio]
    starts as [None] and grows by one padded clip per field. *)
Definition combine_step (row : Row) (combined_audio : option AudioSegment)
    (lc : string * column) : M (option AudioSegment) :=
  audio ← _synthesize_text (get row lc.2) lc.1;
  let audio_with_silence := _add_silence audio 1500 in
  match combined_audio with
  | None => mret (Some audio_with_silence)
  | Some c => mret (Some (c ++ audio_with_silence))
  end.

Definition combine_fields (row : Row) (order : order_t)
  : M (option AudioSegment) :=
  for_each order (combine_step row) None.

(** The body of the loop over the orders: one audio file. *)
Definition export_order (language_version : string) (i : Z) (row : Row)
    (_ : unit) (io : Z * order_t) : M unit :=
  let order_idx := io.1 in
  combined_audio ← combine_fields row io.2;
  let file_index :=
    if bool_decide (language_version ≠ "BOTH") then 0 else order_idx in
  let filename := pretty i +:+ "_" +:+ pretty file_index +:+ ".mp3" in
  match combined_audio with
  | Some a => export filename a
  | None => raise AttributeError
  end.

(** The body of the loop over the rows in [generate_audio]. *)
Definition generate_audio_row (language_version : string)
    (process_orders : list order_t) (_ : unit) (ir : Z * Row) : M unit :=
  for_each (enumerate process_orders) (export_order language_version ir.1 ir.2) tt.

Definition generate_audio (dataframe : DataFrame) (language_version : string)
  : M unit :=
  process_orders ← lift (_get_orders language_version);
  for_each dataframe (generate_audio_row language_version process_orders) tt.

Definition _generate_text_clip (text : string) (audio : AudioFileClip)
    (duration_split : Z) : M TextClip :=
  if renders text
  then mret (mkText text (duration audio / inject_Z duration_split)%Q)
  else raise (OSError text).

(** The body of the loop of the four-slide format. *)
Definition four_slides_step (row : Row) (audio : AudioFileClip)
    (clips : list TextClip) (lc : string * column) : M (list TextClip) :=
  let text := get row lc.2 in
  clip ← _generate_text_clip text audio 4;
  mret (clips ++ [clip]).

(** The clips of one row, by slides format. *)
Definition row_clips (slides_format : string) (order : order_t) (row : Row)
    (audio : AudioFileClip) : M (list TextClip) :=
  if bool_decide (slides_format = "4slides") then
    for_each order (four_slides_step row audio) []
  else if bool_decide (slides_format = "2slides") then
    o0 ← lift (getitem order 0); o1 ← lift (getitem order 1);
    let text1 := get row o0.2 +:+ newline +:+ get row o1.2 in
    o2 ← lift (getitem order 2); o3 ← lift (getitem order 3);
    let text2 := get row o2.2 +:+ newline +:+ get row o3.2 in
    clip1 ← _generate_text_clip text1 audio 2;
    clip2 ← _generate_text_clip text2 audio 2;
    mret ([] ++ [clip1; clip2])
  else raise (ValueError msg_slides_format).

(** The body of the loop of [generate_video]; [len] is [len(dataframe)]. *)
Definition generate_video_row (len words_per_video : Z)
    (slides_format language_version : string) (order : order_t)
    (st : locals) (ir : Z * Row) : M locals :=
  let i := ir.1 in
  let row := ir.2 in
  let order_idx := if bool_decide (language_version = "EN_DE") then 0 else 1 in
  let audio_filename := pretty i +:+ "_" +:+ pretty order_idx +:+ ".mp3" in
  audio ← open_AudioFileClip audio_filename;
  let audio_clips := audio_clips st ++ [audio] in
  clips ← row_clips slides_format order row audio;
  let video_clips := video_clips st ++ [concatenate_videoclips (as_video <$> clips)] in
  let current_word := german_word row in
  let seen := bool_decide (current_word ∈ unique_words st) in
  let unique_words :=
    if seen then unique_words st else {[current_word]} ∪ unique_words st in
  let word_count := if seen then word_count st else word_count st + 1 in
  if bool_decide (word_count = words_per_video) || bool_decide (i = len - 1)
  then
    let final_audio := audio_clips in
    let final_video :=
      mkVideo (concatenate_videoclips video_clips) final_audio in
    number ← (if bool_decide (words_per_video = 0)
              then raise ZeroDivisionError
              else mret (i `div` words_per_video + 1));
    write_videofile
      ("combined_video_" +:+ pretty number +:+ "_" +:+ slides_format +:+ "_"
         +:+ language_version +:+ ".mp4") final_video;;
    mret fresh
  else mret (mkLocals video_clips audio_clips word_count unique_words).

Definition generate_video_loop (dataframe : DataFrame) (len words_per_video : Z)
    (slides_format language_version : string) (order : order_t)
  : locals -> M locals :=
  for_each dataframe
    (generate_video_row len words_per_video slides_format language_version order).

Definition generate_video (dataframe : DataFrame) (words_per_video : Z)
    (slides_format language_version : string) : M unit :=
  match orders language_version with
  | None => raise (ValueError msg_language_version)
  | Some order =>
      generate_video_loop dataframe (Z.of_nat (length dataframe))
        words_per_video slides_format language_version order fresh;;
      mret tt
  end.

End Converter.

(** The name of the audio file that [generate_video] opens for row [i]. *)
Definition video_audio_filename (language_version : string) (i : Z) : string :=
  pretty i +:+ "_"
    +:+ pretty (if bool_decide (language_version = "EN_DE") then 0 else 1)
    +:+ ".mp3".

(** The name of the audio file that [generate_audio] writes for row [i] and
    position [order_idx] in the list of orders. *)
Definition audio_export_filename (language_version : string) (i order_idx : Z)
  : string :=
  pretty i +:+ "_"
    +:+ pretty (if bool_decide (language_version ≠ "BOTH") then 0 else order_idx)
    +:+ ".mp3".

(** The world after the service was called for the fields of [order]. *)
Definition tts_log (row : Row) (w : world) (order : order_t) : world :=
  mkWorld (audio_files w) (video_files w)
          (tts_calls w ++ ((fun lc => (get row lc.2, lc.1)) <$> order)).

(** One field narrated and padded, and the four of an order in a row. *)
Definition padded_clip (synthesize_speech : string -> string -> option Z)
    (row : Row) (lc : string * column) : AudioSegment :=
  [Silence 1500;
   Voice lc.1 (get row lc.2) (default 0 (synthesize_speech (get row lc.2) lc.1));
   Silence 1500].

Definition narration (synthesize_speech : string -> string -> option Z)
    (row : Row) (order : order_t) : AudioSegment :=
  concat (padded_clip synthesize_speech row <$> order).

(** The texts put on screen for one row. *)
Definition slide_texts (slides_format : string) (order : order_t) (row : Row)
  : list string :=
  if bool_decide (slides_format = "4slides")
  then (fun lc => get row lc.2) <$> order
  else
    let field k := get row (nth k order ("", c_german_word)).2 in
    [field 0%nat +:+ newline +:+ field 1%nat;
     field 2%nat +:+ newline +:+ field 3%nat].

Definition slides_count (slides_format : string) : Z :=
  if bool_decide (slides_format = "4slides") then 4 else 2.

(** How long a sequence of overlays stays on screen. *)
Definition total_duration (clips : list TextClip) : Q :=
  foldr Qplus 0%Q (clip_duration <$> clips).

(** The audio clip and the video segment of row [i] in world [w]. *)
Definition row_audio (w : world) (language_version : string) (ir : Z * Row)
  : AudioFileClip :=
  let filename := video_audio_filename language_version ir.1 in
  mkAudio filename
    (Qmake (len_ms (default [] (audio_files w !! filename))) 1000).

Definition row_segment (w : world) (slides_format language_version : string)
    (order : order_t) (ir : Z * Row) : VideoClip :=
  (fun t => mkText t (duration (row_audio w language_version ir)
                      / inject_Z (slides_count slides_format))%Q)
    <$> slide_texts slides_format order ir.2.

(** The video of a batch of rows: segments and audio clips in row order. *)
Definition batch_video (w : world) (slides_format language_version : string)
    (order : order_t) (batch : list (Z * Row)) : VideoFile :=
  mkVideo (concat (row_segment w slides_format language_version order <$> batch))
          (row_audio w language_version <$> batch).

(** Batching as the specification words it: go through the rows in order,
    keeping the rows and the set of distinct source words of the current
    batch; when the number of distinct words reaches [wordsPerVideo], or no
    row is left, emit the batch and start again from nothing. *)
Fixpoint assembleBatches {X} (source_word : X -> string) (wordsPerVideo : Z)
    (batch : list X) (words : gset string) (rows : list X) : list (list X) :=
  match rows with
  | [] => []
  | r :: rest =>
      let batch' := batch ++ [r] in
      let words' := {[source_word r]} ∪ words in
      if bool_decide (Z.of_nat (size words') = wordsPerVideo)
         || bool_decide (length rest = 0%nat)
      then batch' :: assembleBatches source_word wordsPerVideo [] ∅ rest
      else assembleBatches source_word wordsPerVideo batch' words' rest
  end.

(** The number of distinct source words among rows. *)
Definition distinct_words {X} (source_word : X -> string) (rows : list X) : Z :=
  Z.of_nat (size (list_to_set (source_word <$> rows) : gset string)).

(** Every batch ends at the first row where it could end: before its last
    row it had fewer than [wordsPerVideo] distinct words, and every batch
    but the last has exactly [wordsPerVideo] of them. *)
Definition closes_on_count {X} (source_word : X -> string) (wordsPerVideo : Z)
    (batches : list (list X)) : Prop :=
  forall k b, batches !! k = Some b ->
    exists p r, b = p ++ [r] /\
      distinct_words source_word p < wordsPerVideo /\
      (S k < length batches -> distinct_words source_word b = wordsPerVideo)%nat.

(** A table whose index labels count up from [k], as [RangeIndex] from 0. *)
Inductive indexed_from : Z -> DataFrame -> Prop :=
| indexed_nil (k : Z) : indexed_from k []
| indexed_cons (k : Z) (row : Row) (rest : DataFrame) :
    indexed_from (k + 1) rest -> indexed_from k ((k, row) :: rest).

(** The source word of an indexed row. *)
Definition source_word (ir : Z * Row) : string := german_word ir.2.

(** The local variables of the loop hold the batch of rows [batch]. *)
Definition tracks (w : world) (slides_format language_version : string)
    (order : order_t) (batch : list (Z * Row)) (st : locals) : Prop :=
  video_clips st = row_segment w slides_format language_version order <$> batch /\
  audio_clips st = row_audio w language_version <$> batch /\
  unique_words st = list_to_set (source_word <$> batch) /\
  word_count st = Z.of_nat (size (unique_words st)).

(** Stand-ins for the speech service and for ImageMagick, and small tables,
    for running the converter on concrete inputs. *)
Definition always_speaks (text language_code : string) : option Z := Some 1000.

Definition always_renders (text : string) : bool := true.

Definition renders_nonempty (text : string) : bool := bool_decide (text ≠ "").

Definition empty_world : world := mkWorld ∅ [] [].

Definition row_of_word (w : string) : Row :=
  mkRow w ("the " +:+ w) ("Das ist " +:+ w +:+ ".") ("This is the " +:+ w +:+ ".").

Definition five_rows : DataFrame :=
  RangeIndex [row_of_word "A"; row_of_word "A"; row_of_word "B";
              row_of_word "C"; row_of_word "D"].

Definition blank_then_good : DataFrame :=
  RangeIndex [mkRow "Haus" "house" "" ""; row_of_word "Baum"].

Definition one_row : DataFrame := RangeIndex [row_of_word "Haus"].

Definition good_blank_good : DataFrame :=
  RangeIndex [row_of_word "Baum"; mkRow "Haus" "house" "" ""; row_of_word "Tisch"].

(** The world left by [generate_audio] run on nothing but the table. *)
Definition world_after_audio (language_version : string) (dataframe : DataFrame)
  : world :=
  (generate_audio always_speaks dataframe language_version empty_world).1.

End TextToSpeech.

(** ** Measures and tables used to describe whole runs of the converter *)

Module TextToSpeechRuns.
Import Frame TextToSpeech.

(** How long a sequence of audio clips plays. *)
Definition audio_duration (clips : list AudioFileClip) : Q :=
  foldr Qplus 0%Q (duration <$> clips).

(** The audio files of one row, by language mode, added to [files]. *)
Definition row_files (synthesize_speech : string -> string -> option Z)
    (language_mode : string) (i : Z) (row : Row)
    (files : gmap string (list sound)) : gmap string (list sound) :=
  if bool_decide (language_mode = "BOTH") then
    <[pretty i +:+ "_1.mp3" := narration synthesize_speech row order_DE_EN]>
      (<[pretty i +:+ "_0.mp3" := narration synthesize_speech row order_EN_DE]> files)
  else if bool_decide (language_mode = "EN_DE") then
    <[pretty i +:+ "_0.mp3" := narration synthesize_speech row order_EN_DE]> files
  else
    <[pretty i +:+ "_0.mp3" := narration synthesize_speech row order_DE_EN]> files.

(** The audio files of a whole table, row after row. *)
Definition table_files (synthesize_speech : string -> string -> option Z)
    (language_mode : string) (dataframe : DataFrame)
    (files : gmap string (list sound)) : gmap string (list sound) :=
  foldl (fun m ir => row_files synthesize_speech language_mode ir.1 ir.2 m)
        files dataframe.

(** The name under which [generate_video] writes the video numbered [n]. *)
Definition video_filename (n : Z) (slides_format language_version : string)
  : string :=
  "combined_video_" +:+ pretty n +:+ "_" +:+ slides_format +:+ "_"
    +:+ language_version +:+ ".mp4".

(** A table of four different words. *)
Definition four_words : list Row :=
  [row_of_word "A"; row_of_word "B"; row_of_word "C"; row_of_word "D"].

(** A table that kept the labels 5 and 6 of a larger one. *)
Definition late_rows : DataFrame :=
  [(5, row_of_word "Haus"); (6, row_of_word "Baum")].

(** A table from which the row labelled 1 was removed. *)
Definition gap_rows : DataFrame :=
  [(0, row_of_word "A"); (2, row_of_word "B"); (3, row_of_word "C")].


(** The language in which a column is written. *)
Definition language_of (c : column) : string :=
  match c with
  | c_english_word | c_english_sentence => "en-US"
  | c_german_word | c_german_sentence => "de-DE"
  end.

(** Between [w] and [w'] the service was only asked for fields of rows of
    the table, each in the language of its column. *)
Definition calls_from (dataframe : DataFrame) (w w' : world) : Prop :=
  exists calls,
    tts_calls w' = tts_calls w ++ calls /\
    Forall (fun c => exists ir col,
              ir ∈ dataframe /\ c = (get ir.2 col, language_of col)) calls.

(** What a run of [generate_audio] may do to the world: no video file is
    touched, no audio file disappears, and the record of synthesis calls
    only grows. *)
Definition audio_run (w w' : world) : Prop :=
  video_files w' = video_files w /\
  dom (audio_files w) ⊆ dom (audio_files w') /\
  tts_calls w `prefix_of` tts_calls w'.

End TextToSpeechRuns.

(** ** gpt_langchain.py: the vocabulary table and its chunks *)

Module GptTables.

(** Python's [s.split(sep)] for a separator of one character. *)
Fixpoint split (sep : Ascii.ascii) (s : string) : list string :=
  match s with
  | EmptyString => [EmptyString]
  | String a s' =>
      if Ascii.eqb a sep then EmptyString :: split sep s'
      else match split sep s' with
           | piece :: pieces => String a piece :: pieces
           | [] => [String a EmptyString]
           end
  end.

(** Whether a character occurs in a string. *)
Fixpoint has_char (c : Ascii.ascii) (s : string) : bool :=
  match s with
  | EmptyString => false
  | String a s' => Ascii.eqb a c || has_char c s'
  end.

Definition underscore : Ascii.ascii := Ascii.ascii_of_nat 95.

(** A row of the CSV file: the word and its combined key. *)
Record CsvRow : Type := mkCsv {
  csv_word : string;
  csv_level_type : string
}.

(** A row after [_upload_df]: the two columns made from the key are added;
    a key with no separator leaves the second one empty ([None]). *)
Record VocabularyRow : Type := mkVocabulary {
  v_word : string;
  level_type : string;
  v_level : string;
  v_word_type : option string
}.

Definition msg_columns : string := "Columns must be same length as key".

Definition split_row (r : CsvRow) : VocabularyRow :=
  let pieces := split underscore (csv_level_type r) in
  mkVocabulary (csv_word r) (csv_level_type r) (nth 0 pieces "") (pieces !! 1%nat).

Section Upload.

(** [pd.read_csv]: the rows of the file with their labels, or an error. *)
Variable read_csv : string -> result (list (Z * CsvRow)).

(** [str.split('_', expand=True)] makes as many columns as the longest
    split has pieces; assigning them to the two new columns needs exactly
    two. *)
Definition _upload_df (df_path : string) : result (list (Z * VocabularyRow)) :=
  df ← read_csv df_path;
  let pieces := (fun ir => split underscore (csv_level_type ir.2)) <$> df in
  let columns := foldr Nat.max 0%nat (length <$> pieces) in
  if bool_decide (columns = 2%nat)
  then Ok ((fun ir => (ir.1, split_row ir.2)) <$> df)
  else Raise (ValueError msg_columns).

Definition filter_through (word_type : string) : list string :=
  ["a1_" +:+ word_type; "a2_" +:+ word_type; "b1_" +:+ word_type;
   "b2_" +:+ word_type; "c1_" +:+ word_type].

(** [df[df['level_type'] == filtering]]: the rows keep their labels. *)
Definition subset (filtering : string) (df : list (Z * VocabularyRow))
  : list (Z * VocabularyRow) :=
  filter (fun ir => level_type ir.2 = filtering) df.

Definition get_chunks (word_type df_path : string)
    (chunks : gmap string (list (Z * VocabularyRow)))
  : result (gmap string (list (Z * VocabularyRow))) :=
  df ← _upload_df df_path;
  Ok (foldl (fun chunks filtering => <[filtering := subset filtering df]> chunks)
            chunks (filter_through word_type)).

End Upload.

(** [self.chunks[level_word_type]]: a missing key is a [KeyError]. *)
Inductive chunk_lookup : Type :=
| Chunk (df : list (Z * VocabularyRow))
| KeyError (key : string).

Definition get_df_level (level_word_type : string)
    (chunks : gmap string (list (Z * VocabularyRow))) : chunk_lookup :=
  match chunks !! level_word_type with
  | Some df => Chunk df
  | None => KeyError level_word_type
  end.

(** A file of three verbs, for running the functions. *)
Definition verbs_csv (df_path : string) : result (list (Z * CsvRow)) :=
  if bool_decide (df_path = "verb.csv")
  then Ok [(0, mkCsv "gehen" "a1_verb"); (1, mkCsv "annehmen" "b1_verb");
           (2, mkCsv "sein" "a1_verb")]
  else Raise (OSError df_path).

End GptTables.

(** ** selenium_scraper.py: the dictionary of words of one word type *)

Module SeleniumScraper.

Inductive browser_exn : Type :=
| NoSuchElementException
| ElementNotInteractableException
| TimeoutException
| PythonIndexError
| WebDriverException (what : string).

Inductive outcome (A : Type) : Type :=
| Returned (a : A)
| Raised (e : browser_exn).
Arguments Returned {A} a.
Arguments Raised {A} e.

Definition levels : list string := ["a1"; "a2"; "b1"; "b2"; "c1"].

Definition word_types : list string :=
  ["adjective"; "adverb"; "noun"; "number"; "verb"].

(** What the browser does during one turn of the loop over the levels: one
    of the clicks that choose the level raises, which nothing catches; or
    the scraping of the level raises or returns its list of words. *)
Inductive level_visit : Type :=
| ClickRaises (e : browser_exn)
| ScrapeRaises (e : browser_exn)
| Scraped (list_words : list string).

(** The exceptions of the [except] clause around the scraping. *)
Definition caught (e : browser_exn) : bool :=
  match e with
  | NoSuchElementException | ElementNotInteractableException | PythonIndexError => true
  | TimeoutException | WebDriverException _ => false
  end.

Fixpoint for_levels {A S} (xs : list A) (body : S -> A -> outcome S) (s : S)
  : outcome S :=
  match xs with
  | [] => Returned s
  | x :: xs' =>
      match body s x with
      | Returned s' => for_levels xs' body s'
      | Raised e => Raised e
      end
  end.

Section Scraping.

(** The browser, by the position [j] of the level in the menu. *)
Variable visit : Z -> level_visit.

(** The body of the loop of [_perform_scraping_within_levels]. *)
Definition level_step (word_type : string) (words_dict : gmap string string)
    (jl : Z * string) : outcome (gmap string string) :=
  match visit jl.1 with
  | ClickRaises e => Raised e
  | ScrapeRaises e => if caught e then Returned words_dict else Raised e
  | Scraped list_words =>
      let value_name := [jl.2 +:+ "_" +:+ word_type] in
      let dictionary :=
        foldl (fun d word => <[word := nth 0 value_name ""]> d) ∅ list_words in
      Returned (dictionary ∪ words_dict)
  end.

Definition _perform_scraping_within_levels (word_type : string)
  : outcome (gmap string string) :=
  for_levels (zip (seqZ 2 5) levels) (level_step word_type) ∅.

(** The last level, in the order of the loop, at which [word] was scraped. *)
Fixpoint last_level (word : string) (turns : list (Z * string)) : option string :=
  match turns with
  | [] => None
  | jl :: rest =>
      match last_level word rest with
      | Some lvl => Some lvl
      | None =>
          match visit jl.1 with
          | Scraped list_words =>
              if bool_decide (word ∈ list_words) then Some jl.2 else None
          | _ => None
          end
      end
  end.

End Scraping.

(** A browser that lists "gehen" at levels a1 and b1, fails to scrape a2,
    and lists other words elsewhere. *)
Definition sample_visit (j : Z) : level_visit :=
  if bool_decide (j = 2) then Scraped ["gehen"; "sein"]
  else if bool_decide (j = 3) then ScrapeRaises NoSuchElementException
  else if bool_decide (j = 4) then Scraped ["annehmen"; "gehen"]
  else Scraped [].

(** A browser whose menu cannot be clicked at level b1. *)
Definition stuck_visit (j : Z) : level_visit :=
  if bool_decide (j = 4) then ClickRaises TimeoutException
  else if bool_decide (j = 3) then ScrapeRaises NoSuchElementException
  else Scraped ["gehen"].

(** A turn of the loop that lets it go on. *)
Definition goes_on (v : level_visit) : Prop :=
  match v with
  | ClickRaises _ => False
  | ScrapeRaises e => caught e = true
  | Scraped _ => True
  end.

End SeleniumScraper.

(** ** youtube_api_publish.py *)

Module YoutubePublish.

Inductive api_exn : Type :=
| FileNotFoundError (path : string)
| HttpError (what : string)
| KeyError (key : string).

Record request_body : Type := mkBody {
  categoryId : string;
  title : string;
  description : string;
  tags : list string;
  defaultAudioLanguage : string;
  privacyStatus : string;
  madeForKids : bool
}.

(** The requests sent to the platform. *)
Inductive request : Type :=
| VideosInsert (body : request_body) (media : string)
| ThumbnailsSet (videoId media : string)
| PlaylistItemsInsert (playlistId videoId : string).

(** The requests sent so far, in order. *)
Definition M (A : Type) : Type := list request -> list request * (api_exn + A).

Definition ret {A} (a : A) : M A := fun log => (log, inr a).

Definition bind {A B} (m : M A) (f : A -> M B) : M B := fun log =>
  match m log with
  | (log', inr a) => f a log'
  | (log', inl e) => (log', inl e)
  end.

Section Publisher.

(** [description] and [tags] come from the module [youtube_description]. *)
Variable description : string.
Variable tags : list string.

(** Which files can be opened, and what the platform answers to a request:
    an error, or a response that may hold an ["id"]. *)
Variable file_exists : string -> bool.
Variable platform : request -> api_exn + option string.

(** [MediaFileUpload(path)] opens the file. *)
Definition MediaFileUpload (path : string) : M string := fun log =>
  if file_exists path then (log, inr path) else (log, inl (FileNotFoundError path)).

(** [request.execute()] *)
Definition execute (r : request) : M (option string) := fun log =>
  (log ++ [r], platform r).

(** [response["id"]] *)
Definition get_id (response : option string) : M string := fun log =>
  match response with
  | Some video_id => (log, inr video_id)
  | None => (log, inl (KeyError "id"))
  end.

Definition upload_video (video_file_path title thumbnail_path playlist_id
    visibility : string) : M unit :=
  let request_body :=
    mkBody "27" title description tags "en" visibility false in
  bind (MediaFileUpload video_file_path) (fun media =>
  bind (execute (VideosInsert request_body media)) (fun response =>
  bind (get_id response) (fun video_id =>
  bind (MediaFileUpload thumbnail_path) (fun thumbnail =>
  bind (execute (ThumbnailsSet video_id thumbnail)) (fun _ =>
  bind (execute (PlaylistItemsInsert playlist_id video_id)) (fun _ =>
  ret tt)))))).

End Publisher.

(** A platform that accepts everything and names every video "v1", and a
    disk that holds the video but no thumbnail. *)
Definition accepting_platform (r : request) : api_exn + option string :=
  inr (Some "v1").

Definition only_video (path : string) : bool := bool_decide (path = "video.mp4").

End YoutubePublish.

(** * Properties of the sentence generator and of the flattening *)

Module GptLangchainFacts.
Import GptLangchain.

Lemma getitem_lookup {A} (l : list A) (i : nat) (d : A) :
  getitem l i = if bool_decide (i < length l)%nat then Ok (nth i l d) else Raise IndexError.
Proof.
  unfold getitem. case_bool_decide as Hi.
  - destruct (lookup_lt_is_Some_2 l i Hi) as [x Hx].
    rewrite Hx. f_equal. rewrite nth_lookup, Hx. reflexivity.
  - rewrite lookup_ge_None_2 by lia. reflexivity.
Qed.

Lemma append_entry_spec (item : output_dict) (flat_data : list Frame.Row) (i : nat) :
  append_entry item flat_data i =
    if in_range item i then Ok (flat_data ++ [row_at item i]) else Raise IndexError.
Proof.
  unfold append_entry, in_range, row_at.
  rewrite !(getitem_lookup _ i "").
  repeat (case_bool_decide; simpl; try reflexivity).
Qed.


Lemma for_in_range (item : output_dict) (m k : nat) (flat_data : list Frame.Row) :
  for_in (seq k m) (append_entry item) flat_data =
    if forallb (in_range item) (seq k m)
    then Ok (flat_data ++ (row_at item <$> seq k m))
    else Raise IndexError.
Proof.
  revert k flat_data. induction m as [|m IH]; intros k flat_data; simpl.
  - rewrite app_nil_r. reflexivity.
  - rewrite append_entry_spec. destruct (in_range item k); simpl; [|reflexivity].
    rewrite IH. destruct (forallb _ _); [|reflexivity].
    rewrite <- app_assoc. reflexivity.
Qed.

Lemma in_range_covers (item : output_dict) :
  forallb (in_range item) (seq 0 (length (german_word item))) = covers item.
Proof.
  apply eq_true_iff_eq. rewrite forallb_forall. unfold covers, in_range.
  rewrite !andb_true_iff, !bool_decide_eq_true. split.
  - intros H. destruct (german_word item) as [|g gw] eqn:Hg; simpl; [lia|].
    specialize (H (length gw)).
    rewrite !andb_true_iff, !bool_decide_eq_true in H.
    assert (In (length gw) (seq 0 (S (length gw)))) as Hin
      by (apply in_seq; lia).
    specialize (H Hin). simpl in H. lia.
  - intros H i Hin. apply in_seq in Hin.
    rewrite !andb_true_iff, !bool_decide_eq_true. lia.
Qed.

Lemma rows_of_lists_nth (gw ew gs es : list string) :
  (length gw <= length ew)%nat -> (length gw <= length gs)%nat ->
  (length gw <= length es)%nat ->
  (fun i => Frame.mkRow (nth i gw "") (nth i ew "") (nth i gs "") (nth i es ""))
    <$> seq 0 (length gw) = rows_of_lists gw ew gs es.
Proof.
  revert ew gs es. induction gw as [|g gw IH]; intros ew gs es He Hs Ht.
  - reflexivity.
  - destruct ew as [|e ew]; [simpl in He; lia|].
    destruct gs as [|s gs]; [simpl in Hs; lia|].
    destruct es as [|t es]; [simpl in Ht; lia|].
    simpl in *. f_equal. rewrite <- fmap_S_seq, <- list_fmap_compose.
    rewrite <- (IH ew gs es) by lia. reflexivity.
Qed.

Lemma append_item_spec (flat_data : list Frame.Row) (item : output_dict) :
  append_item flat_data item =
    if covers item then Ok (flat_data ++ rows_of item) else Raise IndexError.
Proof.
  unfold append_item. rewrite for_in_range, in_range_covers.
  destruct (covers item) eqn:Hc; [|reflexivity].
  unfold covers in Hc. rewrite !andb_true_iff, !bool_decide_eq_true in Hc.
  unfold rows_of. rewrite <- rows_of_lists_nth by lia. reflexivity.
Qed.

Lemma flat_data_spec (items : list output_dict) (flat_data : list Frame.Row) :
  for_in items append_item flat_data =
    if forallb covers items
    then Ok (flat_data ++ concat (rows_of <$> items))
    else Raise IndexError.
Proof.
  revert flat_data. induction items as [|item items IH]; intros flat_data; simpl.
  - rewrite app_nil_r. reflexivity.
  - rewrite append_item_spec. destruct (covers item); simpl; [|reflexivity].
    rewrite IH. destruct (forallb covers items); [|reflexivity].
    rewrite <- app_assoc. reflexivity.
Qed.

Lemma create_dataframe_spec (items : list output_dict) :
  _create_dataframe_from_list_of_dict items =
    if forallb covers items
    then Ok (Frame.RangeIndex (concat (rows_of <$> items)))
    else Raise IndexError.
Proof.
  unfold _create_dataframe_from_list_of_dict. rewrite flat_data_spec.
  destruct (forallb covers items); reflexivity.
Qed.

Lemma values_RangeIndex (rows : list Frame.Row) :
  Frame.values (Frame.RangeIndex rows) = rows.
Proof.
  unfold Frame.values, Frame.RangeIndex. rewrite fmap_imap.
  rewrite <- (list_fmap_id rows) at 2. rewrite <- imap_const.
  apply imap_ext. reflexivity.
Qed.

Lemma equal_lengths_covers (item : output_dict) :
  equal_lengths item -> covers item = true.
Proof.
  unfold equal_lengths, covers. intros (He & Hs & Ht).
  rewrite !andb_true_iff, !bool_decide_eq_true. lia.
Qed.

Lemma rows_of_lists_length (gw ew gs es : list string) :
  (length gw <= length ew)%nat -> (length gw <= length gs)%nat ->
  (length gw <= length es)%nat ->
  length (rows_of_lists gw ew gs es) = length gw.
Proof.
  intros. rewrite <- rows_of_lists_nth by assumption.
  rewrite length_fmap, length_seq. reflexivity.
Qed.

Lemma rows_of_lists_lookup (gw ew gs es : list string) (i : nat) (row : Frame.Row) :
  rows_of_lists gw ew gs es !! i = Some row ->
  gw !! i = Some (Frame.german_word row) /\
  ew !! i = Some (Frame.english_word row) /\
  gs !! i = Some (Frame.german_sentence row) /\
  es !! i = Some (Frame.english_sentence row).
Proof.
  revert ew gs es i.
  induction gw as [|g gw IH]; intros [|e ew] [|s gs] [|t es] i; simpl;
    try (intros H; rewrite lookup_nil in H; discriminate).
  destruct i as [|i]; simpl.
  - intros [= <-]. simpl. auto.
  - apply IH.
Qed.

(** C6 — on records whose four lists have one length, flattening succeeds,
    emits for each record as many rows as the record has meanings, row [i]
    being made of the [i]-th element of each list, and keeps the order:
    flattening [rs1 ++ rs2] gives the rows of [rs1] followed by those of
    [rs2]. *)
Theorem flatten_valid_records (rs1 rs2 : list output_dict) :
  Forall equal_lengths rs1 -> Forall equal_lengths rs2 ->
  exists df1 df2 df,
    _create_dataframe_from_list_of_dict rs1 = Ok df1 /\
    _create_dataframe_from_list_of_dict rs2 = Ok df2 /\
    _create_dataframe_from_list_of_dict (rs1 ++ rs2) = Ok df /\
    Frame.values df = Frame.values df1 ++ Frame.values df2 /\
    Frame.values df1 = concat (rows_of <$> rs1) /\
    Forall (fun r =>
      length (rows_of r) = length (german_word r) /\
      forall i row, rows_of r !! i = Some row ->
        german_word r !! i = Some (Frame.german_word row) /\
        english_word r !! i = Some (Frame.english_word row) /\
        german_sentence r !! i = Some (Frame.german_sentence row) /\
        english_sentence r !! i = Some (Frame.english_sentence row)) rs1.
Proof.
  intros H1 H2.
  assert (forall rs, Forall equal_lengths rs -> forallb covers rs = true) as Hcov.
  { intros rs Hrs. apply forallb_forall. intros r Hr.
    apply equal_lengths_covers. rewrite Forall_forall in Hrs.
    apply Hrs, list_elem_of_In, Hr. }
  exists (Frame.RangeIndex (concat (rows_of <$> rs1))),
         (Frame.RangeIndex (concat (rows_of <$> rs2))),
         (Frame.RangeIndex (concat (rows_of <$> (rs1 ++ rs2)))).
  rewrite !create_dataframe_spec, !Hcov by (try apply Forall_app; auto).
  rewrite !values_RangeIndex, fmap_app, concat_app.
  repeat split; try reflexivity.
  eapply Forall_impl; [exact H1|]. intros r (He & Hs & Ht). split.
  - apply rows_of_lists_length; lia.
  - intros i row. apply rows_of_lists_lookup.
Qed.

Lemma flatten_valid_records_witness :
  exists df1 df2 df,
    _create_dataframe_from_list_of_dict [gehen_two] = Ok df1 /\
    _create_dataframe_from_list_of_dict [mkDict ["Haus"] ["house"] ["Das Haus."] ["The house."]] = Ok df2 /\
    _create_dataframe_from_list_of_dict
      ([gehen_two] ++ [mkDict ["Haus"] ["house"] ["Das Haus."] ["The house."]]) = Ok df /\
    Frame.values df = Frame.values df1 ++ Frame.values df2 /\
    Frame.values df1 = concat (rows_of <$> [gehen_two]) /\
    Forall (fun r =>
      length (rows_of r) = length (german_word r) /\
      forall i row, rows_of r !! i = Some row ->
        german_word r !! i = Some (Frame.german_word row) /\
        english_word r !! i = Some (Frame.english_word row) /\
        german_sentence r !! i = Some (Frame.german_sentence row) /\
        english_sentence r !! i = Some (Frame.english_sentence row)) [gehen_two].
Proof.
  apply (flatten_valid_records [gehen_two]
           [mkDict ["Haus"] ["house"] ["Das Haus."] ["The house."]]).
  - repeat constructor.
  - repeat constructor.
Defined.

(** C5, as the code has it — flattening validates nothing beforehand.  It
    fails exactly when some record has one of [english_word],
    [german_sentence], [english_sentence] shorter than [german_word], and
    then with the [IndexError] of the first missing index; otherwise it
    succeeds and every record gives [len(german_word)] rows, whatever the
    other lists hold beyond that length. *)
Theorem flatten_error_contract (items : list output_dict) :
  (forallb covers items = true /\
   exists df, _create_dataframe_from_list_of_dict items = Ok df /\
     Frame.values df = concat (rows_of <$> items) /\
     Forall (fun item => length (rows_of item) = length (german_word item)) items)
  \/
  (forallb covers items = false /\
   _create_dataframe_from_list_of_dict items = Raise IndexError).
Proof.
  rewrite create_dataframe_spec.
  destruct (forallb covers items) eqn:Hc; [left | right; auto].
  split; [reflexivity|]. eexists. split; [reflexivity|].
  split; [apply values_RangeIndex|].
  apply Forall_forall. intros item Hin.
  rewrite forallb_forall in Hc. specialize (Hc item).
  rewrite <- list_elem_of_In in Hc. specialize (Hc Hin).
  unfold covers in Hc. rewrite !andb_true_iff, !bool_decide_eq_true in Hc.
  apply rows_of_lists_length; lia.
Qed.

(** A record with an over-long list is flattened without any error, the
    extra translation dropped; a record with a short list has its first row
    appended before the missing index is met. *)
Lemma flatten_unequal_lengths_not_validated :
  ~ equal_lengths gehen_long /\
  _create_dataframe_from_list_of_dict [gehen_long] =
    Ok [(0, Frame.mkRow "gehen" "to go" "Ich gehe." "I go.")] /\
  ~ equal_lengths annehmen_short /\
  append_entry annehmen_short [] 0 =
    Ok [Frame.mkRow "annehmen" "to accept" "Ich nehme an." "I accept."] /\
  append_entry annehmen_short
    [Frame.mkRow "annehmen" "to accept" "Ich nehme an." "I accept."] 1 =
    Raise IndexError /\
  _create_dataframe_from_list_of_dict [annehmen_short] = Raise IndexError.
Proof.
  unfold equal_lengths; simpl.
  repeat split; try reflexivity; intros (? & ? & ?); discriminate.
Qed.

(** An exception of the call to the model leaves the generator as it is. *)
Lemma get_api_response_chat_raises
    (format_messages : string -> string -> string -> string)
    (chat : string -> result string) (parse : string -> result output_dict)
    (w t l : string) (e : exn) :
  chat (format_messages w t l) = Raise e ->
  _get_api_response format_messages chat parse w t l = Raise e.
Proof. intros H. unfold _get_api_response. rewrite H. reflexivity. Qed.

Lemma get_api_response_parsed
    (format_messages : string -> string -> string -> string)
    (chat : string -> result string) (parse : string -> result output_dict)
    (w t l response : string) :
  chat (format_messages w t l) = Ok response ->
  _get_api_response format_messages chat parse w t l = parse response.
Proof.
  intros H. unfold _get_api_response. rewrite H. simpl.
  unfold mbind, result_bind. destruct (parse response); reflexivity.
Qed.




End GptLangchainFacts.

(** * Properties of the speech synthesis and of the video assembly *)

Module TextToSpeechFacts.
Import Frame TextToSpeech.

Ltac run :=
  unfold mbind, M_bind, mret, M_ret, raise, lift; simpl.

(** Closes [x ∉ [a; b; ...]] for distinct string literals. *)
Ltac not_listed :=
  let H := fresh "H" in
  intros H; repeat (apply elem_of_cons in H as [H|H]; [discriminate|]);
  apply elem_of_nil in H; exact H.

Lemma elem_of_two {A} (x a b : A) : x ∈ [a; b] -> x = a \/ x = b.
Proof.
  intros H. apply elem_of_cons in H as [H|H]; [auto|].
  apply elem_of_cons in H as [H|H]; [auto|].
  apply elem_of_nil in H. contradiction.
Qed.

Lemma for_each_app {A S} (xs ys : list A) (body : S -> A -> M S) (s : S) (w : world) :
  for_each (xs ++ ys) body s w =
    match for_each xs body s w with
    | (w', Ok s') => for_each ys body s' w'
    | (w', Raise e) => (w', Raise e)
    end.
Proof.
  revert s w. induction xs as [|x xs IH]; intros s w; simpl; [reflexivity|].
  run. destruct (body s x w) as [w' [s'|e]]; [apply IH | reflexivity].
Qed.

Lemma for_each_cons {A S} (x : A) (xs : list A) (body : S -> A -> M S) (s : S) (w : world) :
  for_each (x :: xs) body s w =
    match body s x w with
    | (w', Ok s') => for_each xs body s' w'
    | (w', Raise e) => (w', Raise e)
    end.
Proof. reflexivity. Qed.

Lemma generate_text_clip_ok (renders : string -> bool) (t : string)
    (audio : AudioFileClip) (n : Z) (w : world) :
  renders t = true ->
  _generate_text_clip renders t audio n w
    = (w, Ok (mkText t (duration audio / inject_Z n)%Q)).
Proof. intros H. unfold _generate_text_clip. rewrite H. reflexivity. Qed.

Lemma row_clips_ok (renders : string -> bool) (slides_format : string)
    (order : order_t) (row : Row) (audio : AudioFileClip) (w : world) :
  (forall t, t ∈ slide_texts slides_format order row -> renders t = true) ->
  order ∈ [order_EN_DE; order_DE_EN] ->
  slides_format ∈ ["4slides"; "2slides"] ->
  row_clips renders slides_format order row audio w =
    (w, Ok ((fun t => mkText t (duration audio / inject_Z (slides_count slides_format))%Q)
              <$> slide_texts slides_format order row)).
Proof.
  intros Hr Ho Hf.
  apply elem_of_two in Ho as [-> | ->]; apply elem_of_two in Hf as [-> | ->];
    unfold row_clips, slide_texts, slides_count in *; simpl in *;
    unfold four_slides_step; run;
    repeat (rewrite generate_text_clip_ok; [simpl|apply Hr; set_solver]);
    reflexivity.
Qed.

(** C7 — with every text rendered, the four-slide format gives exactly four
    overlays and the two-slide format exactly two, each lasting the
    duration of the row's audio divided by that number, so that together
    they last as long as the audio. *)
Theorem row_clips_count_and_duration (renders : string -> bool)
    (slides_format : string) (order : order_t) (row : Row)
    (audio : AudioFileClip) (w : world) :
  (forall t, renders t = true) ->
  order ∈ [order_EN_DE; order_DE_EN] ->
  slides_format ∈ ["4slides"; "2slides"] ->
  exists clips,
    row_clips renders slides_format order row audio w = (w, Ok clips) /\
    Z.of_nat (length clips) = (if bool_decide (slides_format = "4slides") then 4 else 2) /\
    Forall (fun c => clip_duration c =
                     (duration audio / inject_Z (Z.of_nat (length clips)))%Q) clips /\
    (total_duration clips == duration audio)%Q.
Proof.
  intros Hr Ho Hf. eexists. split.
  { apply row_clips_ok; auto. }
  apply elem_of_two in Ho as [-> | ->]; apply elem_of_two in Hf as [-> | ->];
    unfold slide_texts, slides_count, total_duration; simpl;
    (split; [reflexivity|]); (split; [repeat constructor|]); field.
Qed.

Lemma row_clips_count_and_duration_witness :
  exists clips,
    row_clips always_renders "4slides" order_EN_DE (row_of_word "Haus")
      (mkAudio "0_0.mp3" (14 # 1)) empty_world = (empty_world, Ok clips) /\
    Z.of_nat (length clips) = (if bool_decide ("4slides" = "4slides") then 4 else 2) /\
    Forall (fun c => clip_duration c =
                     ((14 # 1) / inject_Z (Z.of_nat (length clips)))%Q) clips /\
    (total_duration clips == 14 # 1)%Q.
Proof.
  apply (row_clips_count_and_duration always_renders "4slides" order_EN_DE
           (row_of_word "Haus") (mkAudio "0_0.mp3" (14 # 1)) empty_world).
  - reflexivity.
  - apply list_elem_of_here.
  - apply list_elem_of_here.
Defined.

Lemma get_orders_invalid (language_mode : string) :
  language_mode ∉ ["EN_DE"; "DE_EN"; "BOTH"] ->
  _get_orders language_mode = Raise (ValueError msg_language_mode).
Proof.
  intros H. unfold _get_orders. rewrite bool_decide_eq_true_2 by exact H.
  reflexivity.
Qed.

Lemma orders_invalid (language_version : string) :
  language_version ∉ ["EN_DE"; "DE_EN"] -> orders language_version = None.
Proof.
  intros H. unfold orders.
  rewrite !bool_decide_eq_false_2; [reflexivity| |]; intros ->; apply H;
    repeat constructor.
Qed.

Lemma orders_valid (language_version : string) :
  language_version ∈ ["EN_DE"; "DE_EN"] ->
  exists order, orders language_version = Some order /\
                order ∈ [order_EN_DE; order_DE_EN].
Proof.
  intros H. apply elem_of_two in H as [-> | ->]; eexists; (split; [reflexivity|]);
    set_solver.
Qed.

(** C10, as the code has it — an invalid language mode makes
    [generate_audio] raise [ValueError] before anything is synthesized or
    written, and an invalid language version makes [generate_video] raise
    [ValueError] before anything is written.  An invalid slides format
    never lets a video file be written either, but it is only met inside
    the loop: on an empty table nothing is raised, on a table whose first
    audio file is missing the [OSError] of that file comes first, and
    otherwise [ValueError] is raised at the first row. *)
Theorem invalid_arguments_write_nothing
    (synthesize_speech : string -> string -> option Z) (renders : string -> bool)
    (dataframe : DataFrame) (words_per_video : Z)
    (language_mode slides_format language_version : string) (w : world) :
  (language_mode ∉ ["EN_DE"; "DE_EN"; "BOTH"] ->
   generate_audio synthesize_speech dataframe language_mode w
     = (w, Raise (ValueError msg_language_mode))) /\
  (language_version ∉ ["EN_DE"; "DE_EN"] ->
   generate_video renders dataframe words_per_video slides_format language_version w
     = (w, Raise (ValueError msg_language_version))) /\
  (language_version ∈ ["EN_DE"; "DE_EN"] ->
   slides_format ∉ ["4slides"; "2slides"] ->
   generate_video renders dataframe words_per_video slides_format language_version w
     = (w, match dataframe with
           | [] => Ok tt
           | ir :: _ =>
               let filename := video_audio_filename language_version ir.1 in
               match audio_files w !! filename with
               | Some _ => Raise (ValueError msg_slides_format)
               | None => Raise (OSError filename)
               end
           end)).
Proof.
  split; [|split].
  - intros H. unfold generate_audio. run. rewrite get_orders_invalid by exact H.
    reflexivity.
  - intros H. unfold generate_video. rewrite orders_invalid by exact H.
    reflexivity.
  - intros Hl Hf. unfold generate_video.
    destruct (orders_valid _ Hl) as (order & -> & _).
    unfold generate_video_loop. destruct dataframe as [|[i row] df]; [reflexivity|].
    simpl. unfold generate_video_row. run.
    unfold open_AudioFileClip, video_audio_filename.
    destruct (audio_files w !! _); [|reflexivity]. simpl.
    unfold row_clips.
    rewrite (bool_decide_eq_false_2 (slides_format = "4slides"))
      by (intros ->; apply Hf; repeat constructor).
    rewrite (bool_decide_eq_false_2 (slides_format = "2slides"))
      by (intros ->; apply Hf; repeat constructor).
    reflexivity.
Qed.

Lemma invalid_arguments_write_nothing_witness :
  generate_audio always_speaks five_rows "DE" empty_world
    = (empty_world, Raise (ValueError msg_language_mode)) /\
  generate_video always_renders five_rows 3 "4slides" "BOTH" empty_world
    = (empty_world, Raise (ValueError msg_language_version)) /\
  generate_video always_renders [] 3 "3slides" "EN_DE" empty_world
    = (empty_world, Ok tt).
Proof.
  split; [|split].
  - apply (invalid_arguments_write_nothing always_speaks always_renders
             five_rows 3 "DE" "4slides" "BOTH" empty_world).
    not_listed.
  - apply (invalid_arguments_write_nothing always_speaks always_renders
             five_rows 3 "DE" "4slides" "BOTH" empty_world).
    not_listed.
  - apply (invalid_arguments_write_nothing always_speaks always_renders
             [] 3 "DE" "3slides" "EN_DE" empty_world).
    + apply list_elem_of_here.
    + not_listed.
Defined.

(** With a slides format that is neither of the two, [generate_video] on an
    empty table returns normally: no [ValueError]. *)
Lemma invalid_slides_format_not_raised_on_empty_table :
("3slides" ∉ ["2slides"; "4slides"]) /\
  generate_video always_renders [] 10 "3slides" "EN_DE" empty_world
    = (empty_world, Ok tt).
Proof.
  split; [|reflexivity].
  not_listed.
Qed.

(** *** File names *)

Lemma string_length_app (s t : string) :
  String.length (s +:+ t) = (String.length s + String.length t)%nat.
Proof. induction s as [|c s IH]; simpl; [reflexivity | rewrite IH; reflexivity]. Qed.

Lemma string_app_inv_head (s a b : string) : s +:+ a = s +:+ b -> a = b.
Proof.
  induction s as [|c s IH]; simpl; [auto|]. intros [= H]. apply IH, H.
Qed.

Lemma string_app_inv_tail (s1 s2 t1 t2 : string) :
  String.length t1 = String.length t2 -> s1 +:+ t1 = s2 +:+ t2 -> t1 = t2.
Proof.
  intros Hlen. revert s2.
  induction s1 as [|c s1 IH]; intros [|d s2] H; simpl in H.
  - exact H.
  - apply (f_equal String.length) in H.
    rewrite !string_length_app in H. simpl in H.
    rewrite ?string_length_app in H. lia.
  - apply (f_equal String.length) in H.
    rewrite !string_length_app in H. simpl in H.
    rewrite ?string_length_app in H. lia.
  - injection H as _ H. apply (IH s2), H.
Qed.

Lemma export_filenames_differ (i : Z) :
  audio_export_filename "BOTH" i 0 <> audio_export_filename "BOTH" i 1.
Proof.
  unfold audio_export_filename. intros H.
  apply string_app_inv_head in H. discriminate H.
Qed.

(** *** generate_audio *)

Section Audio.

Variable synthesize_speech : string -> string -> option Z.
Variable row : Row.

Lemma tts_log_nil (w : world) : tts_log row w [] = w.
Proof. destruct w. unfold tts_log. simpl. rewrite app_nil_r. reflexivity. Qed.

Lemma combine_step_ok (combined_audio : option AudioSegment)
    (lc : string * column) (w : world) :
  is_Some (synthesize_speech (get row lc.2) lc.1) ->
  combine_step synthesize_speech row combined_audio lc w
  = (tts_log row w [lc],
     Ok (Some (default [] combined_audio
                 ++ padded_clip synthesize_speech row lc))).
Proof.
  intros [ms Hms]. unfold combine_step, padded_clip, _synthesize_text. run.
  rewrite Hms. destruct combined_audio; reflexivity.
Qed.

Lemma combine_loop (order : order_t) (combined_audio : option AudioSegment) (w : world) :
  (forall lc, lc ∈ order -> is_Some (synthesize_speech (get row lc.2) lc.1)) ->
  for_each order (combine_step synthesize_speech row) combined_audio w
  = (tts_log row w order,
     Ok (match order with
         | [] => combined_audio
         | _ => Some (default [] combined_audio
                        ++ narration synthesize_speech row order)
         end)).
Proof.
  revert combined_audio w.
  induction order as [|lc order IH]; intros combined_audio w Hs.
  - simpl. rewrite tts_log_nil. reflexivity.
  - rewrite for_each_cons, combine_step_ok by (apply Hs, list_elem_of_here).
    rewrite IH by (intros lc' Hin; apply Hs, list_elem_of_further, Hin).
    unfold tts_log, narration. simpl. rewrite <- !app_assoc. simpl.
    f_equal. destruct order; simpl; rewrite ?app_nil_r; reflexivity.
Qed.

Lemma combine_fields_ok (order : order_t) (w : world) :
  order <> [] ->
  (forall lc, lc ∈ order -> is_Some (synthesize_speech (get row lc.2) lc.1)) ->
  combine_fields synthesize_speech row order w
  = (tts_log row w order, Ok (Some (narration synthesize_speech row order))).
Proof.
  intros Hne Hs. unfold combine_fields. rewrite combine_loop by exact Hs.
  destruct order; [contradiction|]. reflexivity.
Qed.

Lemma export_order_ok (language_version : string) (i : Z) (io : Z * order_t)
    (w : world) :
  io.2 <> [] ->
  (forall lc, lc ∈ io.2 -> is_Some (synthesize_speech (get row lc.2) lc.1)) ->
  export_order synthesize_speech language_version i row tt io w
  = (mkWorld (<[audio_export_filename language_version i io.1 :=
                  narration synthesize_speech row io.2]> (audio_files w))
             (video_files w) (tts_calls (tts_log row w io.2)), Ok tt).
Proof.
  intros Hne Hs. unfold export_order. run.
  rewrite combine_fields_ok by assumption. reflexivity.
Qed.

End Audio.




(** C2 — in mode [DE_EN] the audio of a row is written under order index 0
    while the video assembly of the same mode opens order index 1: no name
    that [generate_audio] can write in that mode is a name that
    [generate_video] opens, and on a one-row table the assembly stops with
    the error of the missing file. *)
Theorem DE_EN_audio_key_mismatch :
  (forall i j k, video_audio_filename "DE_EN" i <> audio_export_filename "DE_EN" j k) /\
  generate_audio always_speaks one_row "DE_EN" empty_world
    = (world_after_audio "DE_EN" one_row, Ok tt) /\
  fst <$> map_to_list (audio_files (world_after_audio "DE_EN" one_row))
    = ["0_0.mp3"] /\
  generate_video always_renders one_row 10 "2slides" "DE_EN"
      (world_after_audio "DE_EN" one_row)
    = (world_after_audio "DE_EN" one_row, Raise (OSError "0_1.mp3")).
Proof.
  split; [|split; [|split]].
  - intros i j k H. unfold video_audio_filename, audio_export_filename in H.
    apply (string_app_inv_tail (pretty i) (pretty j) "_1.mp3" "_0.mp3") in H;
      [discriminate H | reflexivity].
  - vm_compute. reflexivity.
  - vm_compute. reflexivity.
  - vm_compute. reflexivity.
Qed.

(** C3 — with three words per video and rows for the words A, A, B, C, D,
    the batch closed at row 3 and the batch closed at row 4 are both
    written as number 2: the first file is overwritten and no file is
    numbered 1. *)
Theorem batch_numbers_collide_on_repeated_words :
  generate_video always_renders five_rows 3 "4slides" "EN_DE"
      (world_after_audio "EN_DE" five_rows) = 
    ((generate_video always_renders five_rows 3 "4slides" "EN_DE"
        (world_after_audio "EN_DE" five_rows)).1, Ok tt) /\
  fst <$> video_files
      (generate_video always_renders five_rows 3 "4slides" "EN_DE"
         (world_after_audio "EN_DE" five_rows)).1
    = ["combined_video_2_4slides_EN_DE.mp4"; "combined_video_2_4slides_EN_DE.mp4"].
Proof. split; vm_compute; reflexivity. Qed.

(** *** generate_video: one row *)

Lemma orders_some (language_version : string) (order : order_t) :
  orders language_version = Some order ->
  language_version ∈ ["EN_DE"; "DE_EN"] /\ order ∈ [order_EN_DE; order_DE_EN].
Proof.
  unfold orders. repeat case_bool_decide; intros [= <-]; subst;
    split; repeat constructor.
Qed.

(** The clips of a row are those of its texts, unless one of them does not
    render: the first such text is the error. *)
Lemma row_clips_spec (renders : string -> bool) (slides_format : string)
    (order : order_t) (row : Row) (audio : AudioFileClip) (w : world) :
  order ∈ [order_EN_DE; order_DE_EN] ->
  slides_format ∈ ["4slides"; "2slides"] ->
  row_clips renders slides_format order row audio w =
    (w, match find (fun t => negb (renders t)) (slide_texts slides_format order row) with
        | Some t => Raise (OSError t)
        | None =>
            Ok ((fun t => mkText t (duration audio / inject_Z (slides_count slides_format))%Q)
                  <$> slide_texts slides_format order row)
        end).
Proof.
  intros Ho Hf.
  apply elem_of_two in Ho as [-> | ->]; apply elem_of_two in Hf as [-> | ->];
    unfold row_clips, slide_texts, slides_count; simpl;
    unfold four_slides_step, _generate_text_clip; run;
    repeat (match goal with
            | |- context [renders ?t] => destruct (renders t) eqn:?
            end; simpl);
    reflexivity.
Qed.

Lemma generate_video_row_raises (renders : string -> bool) (len words_per_video : Z)
    (slides_format language_version : string) (order : order_t)
    (st : locals) (i : Z) (row : Row) (w : world) (t : string) :
  order ∈ [order_EN_DE; order_DE_EN] ->
  slides_format ∈ ["4slides"; "2slides"] ->
  is_Some (audio_files w !! video_audio_filename language_version i) ->
  t ∈ slide_texts slides_format order row -> renders t = false ->
  exists t', renders t' = false /\ t' ∈ slide_texts slides_format order row /\
    generate_video_row renders len words_per_video slides_format language_version
      order st (i, row) w = (w, Raise (OSError t')).
Proof.
  intros Ho Hf [a Ha] Ht Hr.
  destruct (find (fun t => negb (renders t)) (slide_texts slides_format order row))
    as [t'|] eqn:Hfind.
  - destruct (find_some _ _ Hfind) as [Hin Hneg]. exists t'.
    split; [destruct (renders t'); [discriminate | reflexivity]|].
    split; [apply list_elem_of_In, Hin|].
    unfold generate_video_row, open_AudioFileClip. run.
    fold (video_audio_filename language_version i). rewrite Ha.
    rewrite row_clips_spec by assumption. rewrite Hfind. reflexivity.
  - exfalso.
    pose proof (find_none _ _ Hfind t (proj1 (list_elem_of_In _ _) Ht)) as Hn.
    simpl in Hn. rewrite Hr in Hn. discriminate.
Qed.

(** C9, as the code has it — nothing catches a rendering failure: when a
    text of some row does not render, [generate_video] stops there with
    that error; the world is the one left by the rows before it, so no row
    after it is assembled and nothing reports the row. *)
Theorem render_failure_aborts_run (renders : string -> bool)
    (df1 df2 : DataFrame) (i : Z) (row : Row) (words_per_video : Z)
    (slides_format language_version : string) (order : order_t)
    (w w1 : world) (st1 : locals) (t : string) :
  orders language_version = Some order ->
  slides_format ∈ ["4slides"; "2slides"] ->
  generate_video_loop renders df1 (Z.of_nat (length (df1 ++ (i, row) :: df2)))
    words_per_video slides_format language_version order fresh w = (w1, Ok st1) ->
  is_Some (audio_files w1 !! video_audio_filename language_version i) ->
  t ∈ slide_texts slides_format order row ->
  renders t = false ->
  exists t', renders t' = false /\ t' ∈ slide_texts slides_format order row /\
    generate_video renders (df1 ++ (i, row) :: df2) words_per_video slides_format
      language_version w = (w1, Raise (OSError t')).
Proof.
  intros Horders Hf Hloop Ha Ht Hr.
  destruct (orders_some _ _ Horders) as [_ Ho].
  destruct (generate_video_row_raises renders
              (Z.of_nat (length (df1 ++ (i, row) :: df2))) words_per_video
              slides_format language_version order st1 i row w1 t Ho Hf Ha Ht Hr)
    as (t' & Hr' & Hin & Hstep).
  exists t'. split; [exact Hr'|]. split; [exact Hin|].
  unfold generate_video. rewrite Horders.
  unfold generate_video_loop in *. unfold mbind, M_bind.
  rewrite for_each_app, Hloop, for_each_cons, Hstep. reflexivity.
Qed.

Lemma render_failure_aborts_run_witness :
  exists t', renders_nonempty t' = false /\
    t' ∈ slide_texts "4slides" order_EN_DE (mkRow "Haus" "house" "" "") /\
    generate_video renders_nonempty
      ([(0, row_of_word "Baum")] ++ (1, mkRow "Haus" "house" "" "")
         :: [(2, row_of_word "Tisch")])
      1 "4slides" "EN_DE" (world_after_audio "EN_DE" good_blank_good)
    = ((generate_video_loop renders_nonempty [(0, row_of_word "Baum")] 3 1
          "4slides" "EN_DE" order_EN_DE fresh
          (world_after_audio "EN_DE" good_blank_good)).1,
       Raise (OSError t')).
Proof.
  apply (render_failure_aborts_run renders_nonempty
           [(0, row_of_word "Baum")] [(2, row_of_word "Tisch")]
           1 (mkRow "Haus" "house" "" "") 1 "4slides" "EN_DE" order_EN_DE
           (world_after_audio "EN_DE" good_blank_good)
           (generate_video_loop renders_nonempty [(0, row_of_word "Baum")] 3 1
              "4slides" "EN_DE" order_EN_DE fresh
              (world_after_audio "EN_DE" good_blank_good)).1
           fresh "").
  - reflexivity.
  - apply list_elem_of_here.
  - vm_compute. reflexivity.
  - vm_compute. eexists. reflexivity.
  - apply list_elem_of_further, list_elem_of_further, list_elem_of_here.
  - reflexivity.
Defined.

(** With one word per video, a first row with a blank sentence and a
    second row that is fine: the run stops at the first row, no video is
    written, although the second row alone is assembled into a video. *)
Lemma render_failure_of_one_row_stops_the_others :
  generate_video renders_nonempty blank_then_good 1 "4slides" "EN_DE"
      (world_after_audio "EN_DE" blank_then_good)
    = (world_after_audio "EN_DE" blank_then_good, Raise (OSError "")) /\
  video_files (world_after_audio "EN_DE" blank_then_good) = [] /\
  fst <$> video_files
      (generate_video renders_nonempty (RangeIndex [row_of_word "Baum"]) 1
         "4slides" "EN_DE"
         (world_after_audio "EN_DE" (RangeIndex [row_of_word "Baum"]))).1
    = ["combined_video_1_4slides_EN_DE.mp4"].
Proof. repeat split; vm_compute; reflexivity. Qed.

(** *** generate_video: batching *)

Lemma concat_as_video (clips : list TextClip) :
  concatenate_videoclips (as_video <$> clips) = clips.
Proof.
  unfold concatenate_videoclips.
  induction clips as [|c clips IH]; [reflexivity|].
  rewrite fmap_cons. change (c :: concat (as_video <$> clips) = c :: clips).
  rewrite IH. reflexivity.
Qed.

Lemma video_filename_eq (language_version : string) (i : Z) :
  pretty i +:+ "_" +:+
    pretty (if bool_decide (language_version = "EN_DE") then 0 else 1) +:+ ".mp3"
  = video_audio_filename language_version i.
Proof. reflexivity. Qed.

Lemma generate_video_row_ok (renders : string -> bool) (len words_per_video : Z)
    (slides_format language_version : string) (order : order_t)
    (st : locals) (i : Z) (row : Row) (w w0 : world) :
  (forall t, renders t = true) ->
  order ∈ [order_EN_DE; order_DE_EN] ->
  slides_format ∈ ["4slides"; "2slides"] ->
  audio_files w0 = audio_files w ->
  is_Some (audio_files w !! video_audio_filename language_version i) ->
  generate_video_row renders len words_per_video slides_format language_version
    order st (i, row) w0 =
  let vc := video_clips st ++ [row_segment w slides_format language_version order (i, row)] in
  let ac := audio_clips st ++ [row_audio w language_version (i, row)] in
  let seen := bool_decide (german_word row ∈ unique_words st) in
  let uw := if seen then unique_words st else {[german_word row]} ∪ unique_words st in
  let wc := if seen then word_count st else word_count st + 1 in
  if bool_decide (wc = words_per_video) || bool_decide (i = len - 1)
  then
    if bool_decide (words_per_video = 0) then (w0, Raise ZeroDivisionError)
    else
      (mkWorld (audio_files w0)
         (video_files w0 ++
            [("combined_video_" +:+ pretty (i `div` words_per_video + 1) +:+ "_"
                +:+ slides_format +:+ "_" +:+ language_version +:+ ".mp4",
              mkVideo (concatenate_videoclips vc) ac)])
         (tts_calls w0), Ok fresh)
  else (w0, Ok (mkLocals vc ac wc uw)).
Proof.
  intros Hr Ho Hf Hw [a Ha].
  assert (find (fun t => negb (renders t)) (slide_texts slides_format order row) = None)
    as Hfind.
  { destruct (find _ _) as [t|] eqn:E; [|reflexivity].
    apply find_some in E as [_ E]. rewrite Hr in E. discriminate. }
  pose proof Ha as Ha0. rewrite <- Hw in Ha0.
  unfold generate_video_row, open_AudioFileClip.
  cbn [fst snd]. rewrite video_filename_eq. unfold mbind at 1, M_bind at 1.
  rewrite Ha0. unfold mbind at 1, M_bind at 1.
  rewrite row_clips_spec, Hfind by assumption.
  rewrite concat_as_video.
  unfold row_segment, row_audio. cbn [fst snd]. rewrite Ha. cbn [default].
  cbv zeta.
  destruct (bool_decide _ || bool_decide _); [|reflexivity].
  destruct (bool_decide (words_per_video = 0)); reflexivity.
Qed.

Lemma RangeIndex_indexed_from (k : nat) (rows : list Row) :
  indexed_from (Z.of_nat k) (imap (fun j row => (Z.of_nat (k + j), row)) rows).
Proof.
  revert k. induction rows as [|row rows IH]; intros k; simpl.
  - constructor.
  - rewrite Nat.add_0_r. constructor.
    replace (Z.of_nat k + 1) with (Z.of_nat (S k)) by lia.
    erewrite imap_ext; [apply (IH (S k))|].
    intros j x _. simpl. do 2 f_equal. lia.
Qed.

Lemma RangeIndex_indexed (rows : list Row) : indexed_from 0 (RangeIndex rows).
Proof. apply (RangeIndex_indexed_from 0 rows). Qed.

(** What adding a word does to the set and to its size. *)
Lemma add_word_set (x : string) (words : gset string) :
  (if bool_decide (x ∈ words) then words else {[x]} ∪ words) = {[x]} ∪ words.
Proof.
  case_bool_decide as Hin; [|reflexivity].
  symmetry. apply subseteq_union_1_L, singleton_subseteq_l, Hin.
Qed.

Lemma add_word_size (x : string) (words : gset string) :
  Z.of_nat (size ({[x]} ∪ words)) =
    if bool_decide (x ∈ words) then Z.of_nat (size words)
    else Z.of_nat (size words) + 1.
Proof.
  case_bool_decide as Hin.
  - f_equal. f_equal. apply subseteq_union_1_L, singleton_subseteq_l, Hin.
  - rewrite size_union by (apply disjoint_singleton_l, Hin).
    rewrite size_singleton. lia.
Qed.

Lemma distinct_words_snoc {X} (f : X -> string) (batch : list X) (r : X) :
  (list_to_set (f <$> (batch ++ [r])) : gset string)
  = {[f r]} ∪ list_to_set (f <$> batch).
Proof.
  rewrite fmap_app, list_to_set_app_L. simpl.
  rewrite union_empty_r_L. apply union_comm_L.
Qed.

(** *** The batches of the specification *)

Section Batches.

Context {X : Type}.
Variable f : X -> string.
Variable wordsPerVideo : Z.
Hypothesis positive : 0 < wordsPerVideo.

Lemma assembleBatches_concat (rows batch : list X) (words : gset string) :
  rows <> [] ->
  concat (assembleBatches f wordsPerVideo batch words rows) = batch ++ rows.
Proof.
  revert batch words. induction rows as [|r rest IH]; intros batch words Hne.
  - contradiction.
  - simpl. destruct rest as [|r' rest'].
    + rewrite orb_true_r. simpl. rewrite app_nil_r. reflexivity.
    + destruct (bool_decide _ || bool_decide _).
      * change (concat ((batch ++ [r]) :: ?l)) with ((batch ++ [r]) ++ concat l).
        rewrite (IH [] ∅) by discriminate. rewrite <- app_assoc. reflexivity.
      * rewrite IH by discriminate. rewrite <- app_assoc. reflexivity.
Qed.

Lemma assembleBatches_closes (rows batch : list X) (words : gset string) :
  words = list_to_set (f <$> batch) ->
  Z.of_nat (size words) < wordsPerVideo ->
  closes_on_count f wordsPerVideo (assembleBatches f wordsPerVideo batch words rows).
Proof.
  revert batch words. induction rows as [|r rest IH]; intros batch words Hw Hlt.
  - intros k b Hk. simpl in Hk. rewrite lookup_nil in Hk. discriminate.
  - simpl.
    assert ({[f r]} ∪ words = list_to_set (f <$> (batch ++ [r]))) as Hw'
      by (rewrite distinct_words_snoc, Hw; reflexivity).
    pose proof (add_word_size (f r) words) as Hsize.
    destruct (bool_decide (Z.of_nat (size ({[f r]} ∪ words)) = wordsPerVideo)
              || bool_decide (length rest = 0%nat)) eqn:Hc.
    + intros [|k] b Hk; simpl in Hk.
      * injection Hk as <-. exists batch, r. split; [reflexivity|].
        split; [unfold distinct_words; rewrite <- Hw; exact Hlt|].
        simpl. intros Hlen. unfold distinct_words. rewrite <- Hw'.
        apply orb_true_iff in Hc as [Hc|Hc]; apply bool_decide_eq_true in Hc;
          [exact Hc|].
        destruct rest; [simpl in Hlen; lia | discriminate].
      * destruct (IH [] ∅ eq_refl) with (k := k) (b := b) as (p & r0 & Hb & Hp & Hl);
          [rewrite size_empty; lia | exact Hk |].
        exists p, r0. split; [exact Hb|]. split; [exact Hp|].
        simpl. intros Hlen. apply Hl. lia.
    + apply orb_false_iff in Hc as [Hc _]. apply bool_decide_eq_false in Hc.
      apply IH; [exact Hw'|].
      destruct (bool_decide (f r ∈ words)); lia.
Qed.

End Batches.

Lemma assembleBatches_cons {X} (f : X -> string) (wordsPerVideo : Z)
    (batch : list X) (words : gset string) (r : X) (rest : list X) :
  assembleBatches f wordsPerVideo batch words (r :: rest) =
    if bool_decide (Z.of_nat (size ({[f r]} ∪ words)) = wordsPerVideo)
       || bool_decide (length rest = 0%nat)
    then (batch ++ [r]) :: assembleBatches f wordsPerVideo [] ∅ rest
    else assembleBatches f wordsPerVideo (batch ++ [r]) ({[f r]} ∪ words) rest.
Proof. reflexivity. Qed.

(** *** The loop of generate_video against the specification *)

Section VideoLoop.

Variable renders : string -> bool.
Variables len words_per_video : Z.
Variables slides_format language_version : string.
Variable order : order_t.
Variable w : world.

Hypothesis all_render : forall t, renders t = true.
Hypothesis valid_order : order ∈ [order_EN_DE; order_DE_EN].
Hypothesis valid_format : slides_format ∈ ["4slides"; "2slides"].
Hypothesis positive : 0 < words_per_video.

Lemma tracks_fresh : tracks w slides_format language_version order [] fresh.
Proof. repeat split. Qed.

Lemma generate_video_loop_batches (rest : DataFrame) :
  forall (batch : list (Z * Row)) (st : locals) (w0 : world) (k : Z),
  tracks w slides_format language_version order batch st ->
  word_count st < words_per_video ->
  audio_files w0 = audio_files w ->
  indexed_from k rest ->
  len = k + Z.of_nat (length rest) ->
  (forall ir, ir ∈ rest ->
     is_Some (audio_files w !! video_audio_filename language_version ir.1)) ->
  exists files,
    generate_video_loop renders rest len words_per_video slides_format
      language_version order st w0
    = (mkWorld (audio_files w0) (video_files w0 ++ files) (tts_calls w0),
       Ok (match rest with [] => st | _ => fresh end)) /\
    snd <$> files =
      batch_video w slides_format language_version order
        <$> assembleBatches source_word words_per_video batch (unique_words st) rest.
Proof.
  induction rest as [|[i row] rest IH]; intros batch st w0 k Htr Hlt Hw Hidx Hlen Haud.
  - exists []. split; [|reflexivity].
    unfold generate_video_loop. simpl. rewrite app_nil_r. destruct w0; reflexivity.
  - assert (i = k) as -> by (inversion Hidx; reflexivity).
    assert (indexed_from (k + 1) rest) as Hidx' by (inversion Hidx; assumption).
    destruct Htr as (Hvc & Hac & Huw & Hwc).
    unfold generate_video_loop. rewrite for_each_cons.
    rewrite (generate_video_row_ok renders len words_per_video slides_format
               language_version order st k row w w0)
      by (auto; apply (Haud (k, row)), list_elem_of_here).
    cbv zeta. rewrite assembleBatches_cons.
    assert ((if bool_decide (german_word row ∈ unique_words st)
             then word_count st else word_count st + 1)
            = Z.of_nat (size ({[german_word row]} ∪ unique_words st))) as Hwc'.
    { rewrite add_word_size, Hwc. reflexivity. }
    assert (bool_decide (k = len - 1) = bool_decide (length rest = 0%nat)) as Hlast.
    { apply bool_decide_ext. simpl in Hlen. lia. }
    rewrite Hwc', Hlast, add_word_set.
    change (source_word (k, row)) with (german_word row).
    destruct (bool_decide (Z.of_nat (size ({[german_word row]} ∪ unique_words st))
                           = words_per_video)
              || bool_decide (length rest = 0%nat)) eqn:Hc.
    + rewrite bool_decide_eq_false_2 by lia.
      match goal with
      | |- context [for_each rest _ fresh ?w1] =>
          destruct (IH [] fresh w1 (k + 1)) as (files & Hrun & Hfiles)
      end; try assumption; try exact Hw.
      { apply tracks_fresh. }
      { simpl in Hlen. lia. }
      { intros ir Hin. apply Haud, list_elem_of_further, Hin. }
      simpl in Hrun.
      eexists (_ :: files). split.
      * unfold generate_video_loop in Hrun. rewrite Hrun. simpl.
        rewrite <- app_assoc. simpl. f_equal. destruct rest; reflexivity.
      * rewrite !fmap_cons. simpl in Hfiles. rewrite Hfiles. f_equal.
        cbn [snd]. unfold batch_video. rewrite !fmap_app, <- Hvc, <- Hac.
        reflexivity.
    + apply orb_false_iff in Hc as [Hc Hc']. apply bool_decide_eq_false in Hc, Hc'.
      match goal with
      | |- context [for_each rest _ ?st1 w0] =>
          destruct (IH (batch ++ [(k, row)]) st1 w0 (k + 1)) as (files & Hrun & Hfiles)
      end; try assumption.
      { repeat split; simpl.
        - rewrite fmap_app, <- Hvc. reflexivity.
        - rewrite fmap_app, <- Hac. reflexivity.
        - rewrite distinct_words_snoc, <- Huw. reflexivity. }
      { simpl. pose proof (add_word_size (german_word row) (unique_words st)) as Hs.
        destruct (bool_decide (german_word row ∈ unique_words st)); lia. }
      { simpl in Hlen. lia. }
      { intros ir Hin. apply Haud, list_elem_of_further, Hin. }
      exists files. split.
      * unfold generate_video_loop in Hrun. rewrite Hrun. f_equal.
        destruct rest; [contradiction | reflexivity].
      * exact Hfiles.
Qed.

End VideoLoop.

(** With three words per video, the rows for A, A, B, C, D make two
    batches: the first closes at the row of C, the fourth row. *)
Example five_rows_batches :
  assembleBatches source_word 3 [] ∅ five_rows =
    [[(0, row_of_word "A"); (1, row_of_word "A"); (2, row_of_word "B");
      (3, row_of_word "C")];
     [(4, row_of_word "D")]].
Proof. vm_compute. reflexivity. Qed.

(** On a table indexed 0, 1, 2, ..., with a positive number of words
    per video, valid arguments, every audio file present and every text
    rendered, [generate_video] writes, in order, exactly the videos of the
    batches that the specification's algorithm forms: the batches taken
    together are the rows in order, so the last, partial batch is written
    too; a batch ends at the first row where its distinct source words
    number [words_per_video], or at the last row; the counting starts from
    nothing in each batch, and the loop ends with empty accumulators. *)
Theorem generate_video_batches (renders : string -> bool) (rows : list Row)
    (words_per_video : Z) (slides_format language_version : string) (w : world) :
  0 < words_per_video ->
  language_version ∈ ["EN_DE"; "DE_EN"] ->
  slides_format ∈ ["4slides"; "2slides"] ->
  (forall t, renders t = true) ->
  (forall ir, ir ∈ RangeIndex rows ->
     is_Some (audio_files w !! video_audio_filename language_version ir.1)) ->
  exists order files,
    orders language_version = Some order /\
    generate_video_loop renders (RangeIndex rows)
      (Z.of_nat (length (RangeIndex rows))) words_per_video slides_format
      language_version order fresh w
    = (mkWorld (audio_files w) (video_files w ++ files) (tts_calls w), Ok fresh) /\
    generate_video renders (RangeIndex rows) words_per_video slides_format
      language_version w
    = (mkWorld (audio_files w) (video_files w ++ files) (tts_calls w), Ok tt) /\
    snd <$> files =
      batch_video w slides_format language_version order
        <$> assembleBatches source_word words_per_video [] ∅ (RangeIndex rows) /\
    concat (assembleBatches source_word words_per_video [] ∅ (RangeIndex rows))
      = RangeIndex rows /\
    closes_on_count source_word words_per_video
      (assembleBatches source_word words_per_video [] ∅ (RangeIndex rows)).
Proof.
  intros Hpos Hl Hf Hr Haud.
  destruct (orders_valid _ Hl) as (order & Horders & Ho).
  destruct (generate_video_loop_batches renders
              (Z.of_nat (length (RangeIndex rows))) words_per_video slides_format
              language_version order w Hr Ho Hf Hpos (RangeIndex rows)
              [] fresh w 0)
    as (files & Hrun & Hfiles).
  { apply tracks_fresh. }
  { exact Hpos. }
  { reflexivity. }
  { apply RangeIndex_indexed. }
  { lia. }
  { exact Haud. }
  assert (match RangeIndex rows with [] => fresh | _ => fresh end = fresh) as Hst
    by (destruct (RangeIndex rows); reflexivity).
  rewrite Hst in Hrun.
  exists order, files. split; [exact Horders|]. split; [exact Hrun|].
  split; [|split; [exact Hfiles|split]].
  - unfold generate_video. rewrite Horders. unfold mbind, M_bind.
    rewrite Hrun. reflexivity.
  - destruct (RangeIndex rows) as [|ir df] eqn:E; [reflexivity|].
    rewrite assembleBatches_concat by discriminate. reflexivity.
  - apply assembleBatches_closes; [exact Hpos | reflexivity |].
    rewrite size_empty. exact Hpos.
Qed.

Lemma generate_video_batches_witness :
  exists order files,
    orders "EN_DE" = Some order /\
    generate_video_loop always_renders
      (RangeIndex [row_of_word "A"; row_of_word "A"; row_of_word "B";
                   row_of_word "C"; row_of_word "D"])
      (Z.of_nat (length (RangeIndex [row_of_word "A"; row_of_word "A";
                                     row_of_word "B"; row_of_word "C";
                                     row_of_word "D"])))
      3 "4slides" "EN_DE" order fresh (world_after_audio "EN_DE" five_rows)
    = (mkWorld (audio_files (world_after_audio "EN_DE" five_rows))
         (video_files (world_after_audio "EN_DE" five_rows) ++ files)
         (tts_calls (world_after_audio "EN_DE" five_rows)), Ok fresh) /\
    generate_video always_renders
      (RangeIndex [row_of_word "A"; row_of_word "A"; row_of_word "B";
                   row_of_word "C"; row_of_word "D"])
      3 "4slides" "EN_DE" (world_after_audio "EN_DE" five_rows)
    = (mkWorld (audio_files (world_after_audio "EN_DE" five_rows))
         (video_files (world_after_audio "EN_DE" five_rows) ++ files)
         (tts_calls (world_after_audio "EN_DE" five_rows)), Ok tt) /\
    snd <$> files =
      batch_video (world_after_audio "EN_DE" five_rows) "4slides" "EN_DE" order
        <$> assembleBatches source_word 3 [] ∅
              (RangeIndex [row_of_word "A"; row_of_word "A"; row_of_word "B";
                           row_of_word "C"; row_of_word "D"]) /\
    concat (assembleBatches source_word 3 [] ∅
              (RangeIndex [row_of_word "A"; row_of_word "A"; row_of_word "B";
                           row_of_word "C"; row_of_word "D"]))
      = RangeIndex [row_of_word "A"; row_of_word "A"; row_of_word "B";
                    row_of_word "C"; row_of_word "D"] /\
    closes_on_count source_word 3
      (assembleBatches source_word 3 [] ∅
         (RangeIndex [row_of_word "A"; row_of_word "A"; row_of_word "B";
                      row_of_word "C"; row_of_word "D"])).
Proof.
  apply (generate_video_batches always_renders
           [row_of_word "A"; row_of_word "A"; row_of_word "B";
            row_of_word "C"; row_of_word "D"]
           3 "4slides" "EN_DE" (world_after_audio "EN_DE" five_rows)).
  - reflexivity.
  - apply list_elem_of_here.
  - apply list_elem_of_here.
  - reflexivity.
  - intros ir Hin. unfold RangeIndex in Hin. simpl in Hin.
    repeat (apply elem_of_cons in Hin as [-> | Hin];
            [vm_compute; eexists; reflexivity|]).
    apply elem_of_nil in Hin. contradiction.
Defined.

End TextToSpeechFacts.

(** * Whole runs of the converter *)

Module TextToSpeechRunsFacts.
Import Frame TextToSpeech TextToSpeechRuns TextToSpeechFacts.

(** Closes a frame goal when the world did not change. *)
Ltac nothing_written :=
  simpl; split; [reflexivity|]; split; [reflexivity|];
  exists []; rewrite app_nil_r; split; [reflexivity | simpl; lia].

(** *** What generate_video leaves alone *)

Lemma four_slides_loop_world (renders : string -> bool) (row : Row)
    (audio : AudioFileClip) (order : order_t) (clips : list TextClip) (w : world) :
  (for_each order (four_slides_step renders row audio) clips w).1 = w.
Proof.
  revert clips. induction order as [|lc order IH]; intros clips; [reflexivity|].
  rewrite for_each_cons. unfold four_slides_step at 1, _generate_text_clip.
  destruct (renders _); run; [apply IH | reflexivity].
Qed.

Lemma row_clips_world (renders : string -> bool) (slides_format : string)
    (order : order_t) (row : Row) (audio : AudioFileClip) (w : world) :
  (row_clips renders slides_format order row audio w).1 = w.
Proof.
  unfold row_clips. case_bool_decide; [apply four_slides_loop_world|].
  case_bool_decide; [|reflexivity].
  unfold getitem, _generate_text_clip, lift, mbind, M_bind, mret, M_ret, raise.
  destruct order as [|o0 [|o1 [|o2 [|o3 rest]]]]; try reflexivity.
  cbn [lookup list_lookup fst snd].
  destruct (renders _); [|reflexivity].
  destruct (renders _); reflexivity.
Qed.

Lemma generate_video_row_frame (renders : string -> bool) (len words_per_video : Z)
    (slides_format language_version : string) (order : order_t)
    (st : locals) (ir : Z * Row) (w : world) :
  let w' := (generate_video_row renders len words_per_video slides_format
               language_version order st ir w).1 in
  audio_files w' = audio_files w /\ tts_calls w' = tts_calls w /\
  exists l, video_files w' = video_files w ++ l /\ (length l <= 1)%nat.
Proof.
  cbv zeta.
  destruct (generate_video_row renders len words_per_video slides_format
              language_version order st ir w) as [w' r] eqn:E.
  unfold generate_video_row, open_AudioFileClip in E.
  unfold mbind at 1, M_bind at 1 in E. cbv beta zeta in E.
  match type of E with
  | context [audio_files w !! ?f] => destruct (audio_files w !! f) as [a|]
  end.
  2:{ injection E as <- _. nothing_written. }
  unfold mbind at 1, M_bind at 1 in E.
  match type of E with
  | context [row_clips ?r ?f ?o ?x ?au w] =>
      pose proof (row_clips_world r f o x au w) as Hw;
      destruct (row_clips r f o x au w) as [w1 [clips|e]]
  end; simpl in Hw; subst w1.
  2:{ injection E as <- _. nothing_written. }
  destruct (bool_decide _ || bool_decide _).
  2:{ injection E as <- _. nothing_written. }
  unfold mbind, M_bind, mret, M_ret, raise, write_videofile in E.
  destruct (bool_decide (words_per_video = 0)).
  - injection E as <- _. nothing_written.
  - injection E as <- _. simpl. split; [reflexivity|]. split; [reflexivity|].
    eexists [_]. split; [reflexivity|simpl; lia].
Qed.

Lemma generate_video_loop_frame (renders : string -> bool) (len words_per_video : Z)
    (slides_format language_version : string) (order : order_t)
    (dataframe : DataFrame) (st : locals) (w : world) :
  let w' := (generate_video_loop renders dataframe len words_per_video
               slides_format language_version order st w).1 in
  audio_files w' = audio_files w /\ tts_calls w' = tts_calls w /\
  exists l, video_files w' = video_files w ++ l /\
            (length l <= length dataframe)%nat.
Proof.
  unfold generate_video_loop. revert st w.
  induction dataframe as [|ir df IH]; intros st w.
  - nothing_written.
  - rewrite for_each_cons.
    pose proof (generate_video_row_frame renders len words_per_video slides_format
                  language_version order st ir w) as Hrow.
    destruct (generate_video_row _ _ _ _ _ _ st ir w) as [w1 [st1|e]];
      simpl in Hrow; destruct Hrow as (Ha & Ht & l & Hv & Hl).
    + specialize (IH st1 w1). simpl in IH. destruct IH as (Ha' & Ht' & l' & Hv' & Hl').
      simpl. rewrite Ha', Ht', Hv', Ha, Ht, Hv.
      split; [reflexivity|]. split; [reflexivity|].
      exists (l ++ l'). rewrite app_assoc. split; [reflexivity|].
      rewrite length_app. simpl. lia.
    + simpl. split; [exact Ha|]. split; [exact Ht|].
      exists l. split; [exact Hv|simpl; lia].
Qed.

(** X1 — whatever its arguments and whether it ends normally or with an
    exception, [generate_video] leaves the audio files and the record of
    synthesis calls as they were, and calls [write_videofile] at most once
    per row of the table. *)
Theorem generate_video_frame (renders : string -> bool) (dataframe : DataFrame)
    (words_per_video : Z) (slides_format language_version : string) (w : world) :
  audio_files (generate_video renders dataframe words_per_video slides_format
                 language_version w).1 = audio_files w /\
  tts_calls (generate_video renders dataframe words_per_video slides_format
               language_version w).1 = tts_calls w /\
  (length (video_files (generate_video renders dataframe words_per_video
                          slides_format language_version w).1)
   <= length (video_files w) + length dataframe)%nat.
Proof.
  assert (forall w' : world,
            (audio_files w' = audio_files w /\ tts_calls w' = tts_calls w /\
             exists l, video_files w' = video_files w ++ l /\
                       (length l <= length dataframe)%nat) ->
            audio_files w' = audio_files w /\ tts_calls w' = tts_calls w /\
            (length (video_files w') <= length (video_files w) + length dataframe)%nat)
    as Hcount.
  { intros w' (Ha & Ht & l & Hv & Hl). split; [exact Ha|]. split; [exact Ht|].
    rewrite Hv, length_app. lia. }
  apply Hcount.
  unfold generate_video. destruct (orders language_version) as [order|].
  2:{ nothing_written. }
  pose proof (generate_video_loop_frame renders (Z.of_nat (length dataframe))
                words_per_video slides_format language_version order dataframe
                fresh w) as H.
  unfold mbind, M_bind.
  destruct (generate_video_loop _ _ _ _ _ _ _ _ w) as [w1 [st1|e]]; exact H.
Qed.

(** *** What generate_audio leaves alone *)

Lemma bind_rel {A B} (R : world -> world -> Prop) `{!Transitive R}
    (m : M A) (f : A -> M B) (w : world) :
  R w (m w).1 -> (forall a w1, R w1 (f a w1).1) -> R w ((m ≫= f) w).1.
Proof.
  intros Hm Hf. unfold mbind, M_bind.
  destruct (m w) as [w1 [a|e]]; simpl in *; [|exact Hm].
  etransitivity; [exact Hm | apply Hf].
Qed.

Lemma for_each_rel {A S} (R : world -> world -> Prop)
    `{!Reflexive R} `{!Transitive R} (xs : list A) (body : S -> A -> M S) :
  (forall s x w, R w (body s x w).1) ->
  forall s w, R w (for_each xs body s w).1.
Proof.
  intros Hbody. induction xs as [|x xs IH]; intros s w; simpl.
  - reflexivity.
  - apply (bind_rel R (body s x) (fun s' => for_each xs body s') w);
      [apply Hbody | intros a w1; apply IH].
Qed.

#[local] Instance audio_run_refl : Reflexive audio_run.
Proof. intros w. repeat split; reflexivity. Qed.

#[local] Instance audio_run_trans : Transitive audio_run.
Proof.
  intros w1 w2 w3 (Hv & Hd & Ht) (Hv' & Hd' & Ht').
  split; [congruence|]. split; etransitivity; eassumption.
Qed.

Lemma combine_step_run (synthesize_speech : string -> string -> option Z)
    (row : Row) (c : option AudioSegment) (lc : string * column) (w : world) :
  audio_run w (combine_step synthesize_speech row c lc w).1.
Proof.
  unfold combine_step, _synthesize_text, mbind, M_bind, mret, M_ret.
  destruct (synthesize_speech _ _); [destruct c|]; simpl;
    (split; [reflexivity|]); (split; [reflexivity|]); apply prefix_app_r; reflexivity.
Qed.

Lemma export_order_run (synthesize_speech : string -> string -> option Z)
    (language_version : string) (i : Z) (row : Row) (u : unit)
    (io : Z * order_t) (w : world) :
  audio_run w (export_order synthesize_speech language_version i row u io w).1.
Proof.
  unfold export_order. apply (bind_rel audio_run).
  - unfold combine_fields. apply (for_each_rel audio_run).
    intros c lc w1. apply combine_step_run.
  - intros [a|] w1; [|reflexivity]. unfold export. simpl.
    split; [reflexivity|]. split; [|reflexivity]. simpl.
    rewrite dom_insert_L. set_solver.
Qed.

(** X2 — whatever its arguments and however it ends, [generate_audio]
    writes no video file, removes no audio file that was there, and only
    adds to the record of synthesis calls. *)
Theorem generate_audio_frame (synthesize_speech : string -> string -> option Z)
    (dataframe : DataFrame) (language_version : string) (w : world) :
  video_files (generate_audio synthesize_speech dataframe language_version w).1
    = video_files w /\
  dom (audio_files w) ⊆
    dom (audio_files (generate_audio synthesize_speech dataframe language_version w).1) /\
  tts_calls w `prefix_of`
    tts_calls (generate_audio synthesize_speech dataframe language_version w).1.
Proof.
  change (audio_run w (generate_audio synthesize_speech dataframe language_version w).1).
  unfold generate_audio. apply (bind_rel audio_run); [reflexivity|].
  intros process_orders w1. apply (for_each_rel audio_run).
  intros u ir w2. unfold generate_audio_row.
  apply (for_each_rel audio_run).
  intros u' io w3. apply export_order_run.
Qed.

(** *** A synthesis that fails *)





(** *** The audio files of a whole table *)

Lemma generate_audio_row_ok (synthesize_speech : string -> string -> option Z)
    (language_mode : string) (process_orders : list order_t) (i : Z) (row : Row)
    (w : world) :
  _get_orders language_mode = Ok process_orders ->
  (forall order lc, order ∈ [order_EN_DE; order_DE_EN] -> lc ∈ order ->
     is_Some (synthesize_speech (get row lc.2) lc.1)) ->
  exists w',
    generate_audio_row synthesize_speech language_mode process_orders tt (i, row) w
      = (w', Ok tt) /\
    audio_files w' = row_files synthesize_speech language_mode i row (audio_files w) /\
    video_files w' = video_files w.
Proof.
  intros Horders Hs.
  pose proof (fun lc => Hs order_EN_DE lc ltac:(repeat constructor)) as H0.
  pose proof (fun lc => Hs order_DE_EN lc ltac:(repeat constructor)) as H1.
  unfold _get_orders in Horders. unfold row_files, generate_audio_row.
  case_bool_decide as Hvalid; [discriminate|].
  destruct (bool_decide (language_mode = "EN_DE")) eqn:E1;
    [|destruct (bool_decide (language_mode = "DE_EN")) eqn:E2];
    injection Horders as <-.
  - apply bool_decide_eq_true in E1 as ->.
    change (enumerate [order_EN_DE]) with [(0, order_EN_DE)].
    rewrite for_each_cons, export_order_ok by (simpl; auto; discriminate).
    eexists. split; [reflexivity|]. split; reflexivity.
  - apply bool_decide_eq_true in E2 as ->.
    change (enumerate [order_DE_EN]) with [(0, order_DE_EN)].
    rewrite for_each_cons, export_order_ok by (simpl; auto; discriminate).
    eexists. split; [reflexivity|]. split; reflexivity.
  - apply bool_decide_eq_false in E1, E2.
    assert (language_mode = "BOTH") as ->.
    { destruct (decide (language_mode = "BOTH")) as [|Hb]; [assumption|].
      exfalso.
      repeat (apply elem_of_cons in Hvalid as [Hvalid|Hvalid]; [congruence|]).
      apply elem_of_nil in Hvalid. exact Hvalid. }
    change (enumerate [order_EN_DE; order_DE_EN])
      with [(0, order_EN_DE); (1, order_DE_EN)].
    rewrite for_each_cons, export_order_ok by (simpl; auto; discriminate).
    rewrite for_each_cons, export_order_ok by (simpl; auto; discriminate).
    eexists. split; [reflexivity|]. split; reflexivity.
Qed.

Lemma generate_audio_loop_ok (synthesize_speech : string -> string -> option Z)
    (language_mode : string) (process_orders : list order_t) (dataframe : DataFrame) :
  _get_orders language_mode = Ok process_orders ->
  (forall ir order lc, ir ∈ dataframe -> order ∈ [order_EN_DE; order_DE_EN] ->
     lc ∈ order -> is_Some (synthesize_speech (get ir.2 lc.2) lc.1)) ->
  forall w, exists w',
    for_each dataframe
      (generate_audio_row synthesize_speech language_mode process_orders) tt w
      = (w', Ok tt) /\
    audio_files w' = table_files synthesize_speech language_mode dataframe
                       (audio_files w) /\
    video_files w' = video_files w.
Proof.
  intros Horders. induction dataframe as [|[i row] df IH]; intros Hs w.
  - exists w. repeat split.
  - destruct (generate_audio_row_ok synthesize_speech language_mode process_orders
                i row w Horders) as (w1 & Hrow & Ha & Hv).
    { intros order lc Ho Hlc.
      apply (Hs (i, row) order lc); [apply list_elem_of_here | exact Ho | exact Hlc]. }
    destruct (IH (fun ir order lc Hin => Hs ir order lc (list_elem_of_further _ _ _ Hin)) w1)
      as (w' & Hrun & Ha' & Hv').
    exists w'. rewrite for_each_cons, Hrow. split; [exact Hrun|].
    split; [|congruence]. rewrite Ha', Ha. reflexivity.
Qed.

Lemma audio_name_inj (i j : Z) (a b : string) :
  String.length a = String.length b ->
  pretty i +:+ a = pretty j +:+ b -> i = j /\ a = b.
Proof.
  intros Hlen H. pose proof (string_app_inv_tail _ _ _ _ Hlen H) as ->.
  split; [|reflexivity]. apply (inj pretty).
  clear Hlen. revert H. generalize (pretty i) (pretty j). intros s1.
  induction s1 as [|c s1 IH]; intros [|d s2] H; simpl in H.
  - reflexivity.
  - apply (f_equal String.length) in H.
    rewrite ?string_length_app in H. simpl in H.
    rewrite ?string_length_app in H. lia.
  - apply (f_equal String.length) in H.
    rewrite ?string_length_app in H. simpl in H.
    rewrite ?string_length_app in H. lia.
  - injection H as -> H. f_equal. apply IH, H.
Qed.

Lemma row_files_other (synthesize_speech : string -> string -> option Z)
    (language_mode : string) (i : Z) (row : Row) (files : gmap string (list sound))
    (name : string) :
  name <> pretty i +:+ "_0.mp3" -> name <> pretty i +:+ "_1.mp3" ->
  row_files synthesize_speech language_mode i row files !! name = files !! name.
Proof.
  intros H0 H1. unfold row_files.
  repeat case_bool_decide; rewrite ?lookup_insert_ne by congruence; reflexivity.
Qed.

Lemma row_files_own (synthesize_speech : string -> string -> option Z)
    (language_mode : string) (i : Z) (row : Row) (files : gmap string (list sound)) :
  language_mode ∈ ["EN_DE"; "DE_EN"; "BOTH"] ->
  row_files synthesize_speech language_mode i row files !! (pretty i +:+ "_0.mp3")
    = Some (narration synthesize_speech row
              (if bool_decide (language_mode = "DE_EN") then order_DE_EN
               else order_EN_DE)) /\
  (language_mode = "BOTH" ->
   row_files synthesize_speech language_mode i row files !! (pretty i +:+ "_1.mp3")
     = Some (narration synthesize_speech row order_DE_EN)).
Proof.
  intros Hm. unfold row_files.
  assert (pretty i +:+ "_1.mp3" <> pretty i +:+ "_0.mp3") as Hne.
  { intros H. apply string_app_inv_head in H. discriminate H. }
  apply elem_of_cons in Hm as [-> | Hm]; [|apply elem_of_two in Hm as [-> | ->]];
    simpl; (split; [|intros; try discriminate]).
  - apply lookup_insert_eq.
  - apply lookup_insert_eq.
  - rewrite lookup_insert_ne by exact Hne. apply lookup_insert_eq.
  - apply lookup_insert_eq.
Qed.

Lemma table_files_other (synthesize_speech : string -> string -> option Z)
    (language_mode : string) (dataframe : DataFrame) (name : string) :
  (forall i, i ∈ fst <$> dataframe ->
     name <> pretty i +:+ "_0.mp3" /\ name <> pretty i +:+ "_1.mp3") ->
  forall files,
    table_files synthesize_speech language_mode dataframe files !! name
      = files !! name.
Proof.
  unfold table_files.
  induction dataframe as [|[j r] df IH]; intros Hname files; [reflexivity|].
  simpl. rewrite IH.
  - apply row_files_other; apply (Hname j); apply list_elem_of_here.
  - intros i Hi. apply Hname. apply list_elem_of_further, Hi.
Qed.

(** X5 — on a table whose index labels are pairwise different, with a
    valid mode and a service that narrates every field, [generate_audio]
    ends normally; afterwards the file [i_0.mp3] of every row [i] holds the
    padded narration of that row (in the order of the mode, the English
    first order for [BOTH]), in mode [BOTH] the file [i_1.mp3] holds the
    German first one, and every file not named after a row of the table is
    as it was. *)
Theorem generate_audio_files (synthesize_speech : string -> string -> option Z)
    (dataframe : DataFrame) (language_mode : string) (w : world) :
  language_mode ∈ ["EN_DE"; "DE_EN"; "BOTH"] ->
  NoDup (fst <$> dataframe) ->
  (forall ir order lc, ir ∈ dataframe -> order ∈ [order_EN_DE; order_DE_EN] ->
     lc ∈ order -> is_Some (synthesize_speech (get ir.2 lc.2) lc.1)) ->
  exists w',
    generate_audio synthesize_speech dataframe language_mode w = (w', Ok tt) /\
    (forall i row, (i, row) ∈ dataframe ->
       audio_files w' !! (pretty i +:+ "_0.mp3")
         = Some (narration synthesize_speech row
                   (if bool_decide (language_mode = "DE_EN") then order_DE_EN
                    else order_EN_DE)) /\
       (language_mode = "BOTH" ->
        audio_files w' !! (pretty i +:+ "_1.mp3")
          = Some (narration synthesize_speech row order_DE_EN))) /\
    (forall name,
       (forall i, i ∈ fst <$> dataframe ->
          name <> pretty i +:+ "_0.mp3" /\ name <> pretty i +:+ "_1.mp3") ->
       audio_files w' !! name = audio_files w !! name).
Proof.
  intros Hm Hnd Hs.
  assert (exists process_orders, _get_orders language_mode = Ok process_orders)
    as [process_orders Horders].
  { unfold _get_orders. rewrite bool_decide_eq_false_2 by (intros H; apply H, Hm).
    repeat case_bool_decide; eauto. }
  destruct (generate_audio_loop_ok synthesize_speech language_mode process_orders
              dataframe Horders Hs w) as (w' & Hrun & Ha & _).
  exists w'. split.
  { unfold generate_audio, lift. unfold mbind at 1, M_bind at 1.
    rewrite Horders. exact Hrun. }
  rewrite Ha. clear Hrun Ha Hs Horders w'. split.
  - generalize (audio_files w). clear w.
    induction dataframe as [|[j r] df IH]; intros files i row Hin.
    + apply elem_of_nil in Hin. contradiction.
    + apply NoDup_cons in Hnd as [Hj Hnd].
      apply elem_of_cons in Hin as [[= -> ->] | Hin].
      * unfold table_files. simpl.
        fold (table_files synthesize_speech language_mode df
                (row_files synthesize_speech language_mode j r files)).
        assert (forall a, String.length a = 6%nat -> forall i0, i0 ∈ fst <$> df ->
                  pretty j +:+ a <> pretty i0 +:+ "_0.mp3" /\
                  pretty j +:+ a <> pretty i0 +:+ "_1.mp3") as Hother.
        { intros a Ha i0 Hi0. split; intros H;
            apply audio_name_inj in H as [-> _]; auto. }
        rewrite !table_files_other by (apply Hother; reflexivity).
        apply row_files_own, Hm.
      * unfold table_files. simpl. apply (IH Hnd _ i row Hin).
  - intros name Hname. apply table_files_other, Hname.
Qed.

Lemma generate_audio_files_witness :
  exists w',
    generate_audio always_speaks five_rows "BOTH" empty_world = (w', Ok tt) /\
    (forall i row, (i, row) ∈ five_rows ->
       audio_files w' !! (pretty i +:+ "_0.mp3")
         = Some (narration always_speaks row
                   (if bool_decide ("BOTH" = "DE_EN") then order_DE_EN
                    else order_EN_DE)) /\
       ("BOTH" = "BOTH" ->
        audio_files w' !! (pretty i +:+ "_1.mp3")
          = Some (narration always_speaks row order_DE_EN))) /\
    (forall name,
       (forall i, i ∈ fst <$> five_rows ->
          name <> pretty i +:+ "_0.mp3" /\ name <> pretty i +:+ "_1.mp3") ->
       audio_files w' !! name = audio_files empty_world !! name).
Proof.
  apply (generate_audio_files always_speaks five_rows "BOTH" empty_world).
  - apply list_elem_of_further, list_elem_of_further, list_elem_of_here.
  - vm_compute. repeat constructor; intros H;
      repeat (apply elem_of_cons in H as [H|H]; [discriminate|]);
      apply elem_of_nil in H; exact H.
  - intros ir order lc _ _ _. exists 1000. reflexivity.
Defined.

(** *** From the audio stage to the video stage *)

Lemma row_files_keeps (synthesize_speech : string -> string -> option Z)
    (language_mode : string) (i : Z) (row : Row) (files : gmap string (list sound))
    (name : string) :
  is_Some (files !! name) ->
  is_Some (row_files synthesize_speech language_mode i row files !! name).
Proof.
  intros H. unfold row_files.
  repeat case_bool_decide; rewrite !lookup_insert_is_Some'; auto.
Qed.

Lemma table_files_keeps (synthesize_speech : string -> string -> option Z)
    (language_mode : string) (dataframe : DataFrame) (name : string) :
  forall files, is_Some (files !! name) ->
  is_Some (table_files synthesize_speech language_mode dataframe files !! name).
Proof.
  unfold table_files. induction dataframe as [|[j r] df IH]; intros files H;
    [exact H|].
  simpl. apply IH, row_files_keeps, H.
Qed.

Lemma table_files_has (synthesize_speech : string -> string -> option Z)
    (language_mode : string) (dataframe : DataFrame) (i : Z) (row : Row) :
  language_mode ∈ ["EN_DE"; "DE_EN"; "BOTH"] ->
  (i, row) ∈ dataframe ->
  forall files,
  is_Some (table_files synthesize_speech language_mode dataframe files
             !! (pretty i +:+ "_0.mp3")) /\
  (language_mode = "BOTH" ->
   is_Some (table_files synthesize_speech language_mode dataframe files
              !! (pretty i +:+ "_1.mp3"))).
Proof.
  intros Hm. induction dataframe as [|[j r] df IH]; intros Hin files.
  - apply elem_of_nil in Hin. contradiction.
  - apply elem_of_cons in Hin as [[= -> ->] | Hin]; [|apply (IH Hin)].
    destruct (row_files_own synthesize_speech language_mode j r files Hm) as [H0 H1].
    unfold table_files. simpl. split.
    + apply table_files_keeps. rewrite H0. eauto.
    + intros Hb. apply table_files_keeps. rewrite (H1 Hb). eauto.
Qed.

(** X6 — the audio stage feeds the video stage when the modes agree on the
    file index: after [generate_audio] in mode [EN_DE], or in mode [BOTH],
    on a table indexed 0, 1, 2, ..., [generate_video] in mode [EN_DE] (and,
    after [BOTH], in mode [DE_EN] too) finds every audio file it opens and,
    with every text rendered and a positive number of words per video,
    ends normally having written the videos of the batches. *)
Theorem audio_then_video (synthesize_speech : string -> string -> option Z)
    (renders : string -> bool) (rows : list Row) (words_per_video : Z)
    (slides_format language_mode language_version : string) (w : world) :
  0 < words_per_video ->
  slides_format ∈ ["4slides"; "2slides"] ->
  (language_mode, language_version)
    ∈ [("EN_DE", "EN_DE"); ("BOTH", "EN_DE"); ("BOTH", "DE_EN")] ->
  (forall text language_code, is_Some (synthesize_speech text language_code)) ->
  (forall t, renders t = true) ->
  exists w1 order files,
    generate_audio synthesize_speech (RangeIndex rows) language_mode w
      = (w1, Ok tt) /\
    orders language_version = Some order /\
    generate_video renders (RangeIndex rows) words_per_video slides_format
      language_version w1
    = (mkWorld (audio_files w1) (video_files w ++ files) (tts_calls w1), Ok tt) /\
    snd <$> files =
      batch_video w1 slides_format language_version order
        <$> assembleBatches source_word words_per_video [] ∅ (RangeIndex rows).
Proof.
  intros Hpos Hf Hmodes Hs Hr.
  assert (language_mode ∈ ["EN_DE"; "DE_EN"; "BOTH"] /\
          language_version ∈ ["EN_DE"; "DE_EN"] /\
          (language_version = "DE_EN" -> language_mode = "BOTH")) as (Hm & Hl & Hb).
  { repeat (apply elem_of_cons in Hmodes as [[= -> ->] | Hmodes];
            [repeat split; try (repeat constructor); try discriminate; auto|]).
    apply elem_of_nil in Hmodes. contradiction. }
  assert (exists process_orders, _get_orders language_mode = Ok process_orders)
    as [process_orders Horders].
  { unfold _get_orders. rewrite bool_decide_eq_false_2 by (intros H; apply H, Hm).
    repeat case_bool_decide; eauto. }
  destruct (generate_audio_loop_ok synthesize_speech language_mode process_orders
              (RangeIndex rows) Horders (fun ir order lc _ _ _ => Hs _ _) w)
    as (w1 & Hrun & Ha & Hv).
  destruct (orders_valid _ Hl) as (order & Ho & Hoin).
  destruct (generate_video_loop_batches renders
              (Z.of_nat (length (RangeIndex rows))) words_per_video slides_format
              language_version order w1 Hr Hoin Hf Hpos (RangeIndex rows)
              [] fresh w1 0)
    as (files & Hvid & Hfiles).
  { apply tracks_fresh. }
  { exact Hpos. }
  { reflexivity. }
  { apply RangeIndex_indexed. }
  { lia. }
  { intros [i row] Hin. rewrite Ha. cbn [fst].
    destruct (table_files_has synthesize_speech language_mode (RangeIndex rows)
                i row Hm Hin (audio_files w)) as [H0 H1].
    apply elem_of_two in Hl as [-> | ->]; [exact H0 | apply H1, Hb; reflexivity]. }
  exists w1, order, files. split.
  { unfold generate_audio, lift. unfold mbind at 1, M_bind at 1.
    rewrite Horders. exact Hrun. }
  split; [exact Ho|]. split; [|exact Hfiles].
  unfold generate_video. rewrite Ho. unfold mbind, M_bind. rewrite Hvid, Hv.
  reflexivity.
Qed.

Lemma audio_then_video_witness :
  exists w1 order files,
    generate_audio always_speaks
      (RangeIndex [row_of_word "A"; row_of_word "A"; row_of_word "B"])
      "BOTH" empty_world = (w1, Ok tt) /\
    orders "DE_EN" = Some order /\
    generate_video always_renders
      (RangeIndex [row_of_word "A"; row_of_word "A"; row_of_word "B"])
      2 "2slides" "DE_EN" w1
    = (mkWorld (audio_files w1) (video_files empty_world ++ files) (tts_calls w1),
       Ok tt) /\
    snd <$> files =
      batch_video w1 "2slides" "DE_EN" order
        <$> assembleBatches source_word 2 [] ∅
              (RangeIndex [row_of_word "A"; row_of_word "A"; row_of_word "B"]).
Proof.
  apply (audio_then_video always_speaks always_renders
           [row_of_word "A"; row_of_word "A"; row_of_word "B"]
           2 "2slides" "BOTH" "DE_EN" empty_world).
  - reflexivity.
  - apply list_elem_of_further, list_elem_of_here.
  - apply list_elem_of_further, list_elem_of_further, list_elem_of_here.
  - intros text language_code. exists 1000. reflexivity.
  - reflexivity.
Defined.

(** *** Picture and sound of a written video *)

Lemma total_duration_app (a b : list TextClip) :
  (total_duration (a ++ b) == total_duration a + total_duration b)%Q.
Proof.
  induction a as [|c a IH].
  - change (total_duration b == 0 + total_duration b)%Q. symmetry. apply Qplus_0_l.
  - change (clip_duration c + total_duration (a ++ b)
            == clip_duration c + total_duration a + total_duration b)%Q.
    rewrite IH. apply Qplus_assoc.
Qed.

Lemma row_segment_duration (w : world) (slides_format language_version : string)
    (order : order_t) (ir : Z * Row) :
  order ∈ [order_EN_DE; order_DE_EN] ->
  slides_format ∈ ["4slides"; "2slides"] ->
  (total_duration (row_segment w slides_format language_version order ir)
   == duration (row_audio w language_version ir))%Q.
Proof.
  intros Ho Hf. unfold row_segment.
  generalize (duration (row_audio w language_version ir)). intros d.
  apply elem_of_two in Ho as [-> | ->]; apply elem_of_two in Hf as [-> | ->];
    unfold slide_texts, slides_count, total_duration; simpl; field.
Qed.

Lemma batch_video_in_sync (w : world) (slides_format language_version : string)
    (order : order_t) (batch : list (Z * Row)) :
  order ∈ [order_EN_DE; order_DE_EN] ->
  slides_format ∈ ["4slides"; "2slides"] ->
  (total_duration (overlays (batch_video w slides_format language_version order batch))
   == audio_duration (audio_track (batch_video w slides_format language_version
                                     order batch)))%Q.
Proof.
  intros Ho Hf. unfold batch_video. cbn [overlays audio_track].
  induction batch as [|ir batch IH].
  - reflexivity.
  - rewrite !fmap_cons. cbn [concat]. rewrite total_duration_app, IH.
    rewrite row_segment_duration by assumption.
    unfold audio_duration. simpl. reflexivity.
Qed.

(** X7 — in every video that a normal run of [generate_video] writes, the
    overlays together last exactly as long as the audio track: picture and
    sound of a batch end together. *)
Theorem written_videos_in_sync (renders : string -> bool) (rows : list Row)
    (words_per_video : Z) (slides_format language_version : string) (w : world) :
  0 < words_per_video ->
  language_version ∈ ["EN_DE"; "DE_EN"] ->
  slides_format ∈ ["4slides"; "2slides"] ->
  (forall t, renders t = true) ->
  (forall ir, ir ∈ RangeIndex rows ->
     is_Some (audio_files w !! video_audio_filename language_version ir.1)) ->
  exists files,
    generate_video renders (RangeIndex rows) words_per_video slides_format
      language_version w
    = (mkWorld (audio_files w) (video_files w ++ files) (tts_calls w), Ok tt) /\
    Forall (fun nv => (total_duration (overlays nv.2)
                       == audio_duration (audio_track nv.2))%Q) files.
Proof.
  intros Hpos Hl Hf Hr Haud.
  destruct (orders_valid _ Hl) as (order & Ho & Hoin).
  destruct (generate_video_loop_batches renders
              (Z.of_nat (length (RangeIndex rows))) words_per_video slides_format
              language_version order w Hr Hoin Hf Hpos (RangeIndex rows)
              [] fresh w 0)
    as (files & Hvid & Hfiles).
  { apply tracks_fresh. }
  { exact Hpos. }
  { reflexivity. }
  { apply RangeIndex_indexed. }
  { lia. }
  { exact Haud. }
  exists files. split.
  { unfold generate_video. rewrite Ho. unfold mbind, M_bind. rewrite Hvid.
    reflexivity. }
  apply Forall_fmap with (f := snd)
    (P := fun v => (total_duration (overlays v) == audio_duration (audio_track v))%Q).
  rewrite Hfiles. apply Forall_fmap, Forall_forall. intros batch _.
  apply batch_video_in_sync; assumption.
Qed.

Lemma written_videos_in_sync_witness :
  exists files,
    generate_video always_renders
      (RangeIndex [row_of_word "A"; row_of_word "A"; row_of_word "B";
                   row_of_word "C"; row_of_word "D"])
      3 "2slides" "EN_DE" (world_after_audio "EN_DE" five_rows)
    = (mkWorld (audio_files (world_after_audio "EN_DE" five_rows))
         (video_files (world_after_audio "EN_DE" five_rows) ++ files)
         (tts_calls (world_after_audio "EN_DE" five_rows)), Ok tt) /\
    Forall (fun nv => (total_duration (overlays nv.2)
                       == audio_duration (audio_track nv.2))%Q) files.
Proof.
  apply (written_videos_in_sync always_renders
           [row_of_word "A"; row_of_word "A"; row_of_word "B";
            row_of_word "C"; row_of_word "D"]
           3 "2slides" "EN_DE" (world_after_audio "EN_DE" five_rows)).
  - reflexivity.
  - apply list_elem_of_here.
  - apply list_elem_of_further, list_elem_of_here.
  - reflexivity.
  - intros ir Hin. unfold RangeIndex in Hin. simpl in Hin.
    repeat (apply elem_of_cons in Hin as [-> | Hin];
            [vm_compute; eexists; reflexivity|]).
    apply elem_of_nil in Hin. contradiction.
Defined.

(** *** A missing audio file *)

(** X8 — when the audio file of some row is missing, [generate_video]
    stops at that row with the [OSError] of that file: the videos written
    by the rows before it remain and no later row is assembled. *)
Theorem missing_audio_aborts_run (renders : string -> bool)
    (df1 df2 : DataFrame) (i : Z) (row : Row) (words_per_video : Z)
    (slides_format language_version : string) (order : order_t)
    (w w1 : world) (st1 : locals) :
  orders language_version = Some order ->
  generate_video_loop renders df1 (Z.of_nat (length (df1 ++ (i, row) :: df2)))
    words_per_video slides_format language_version order fresh w = (w1, Ok st1) ->
  audio_files w1 !! video_audio_filename language_version i = None ->
  generate_video renders (df1 ++ (i, row) :: df2) words_per_video slides_format
    language_version w
  = (w1, Raise (OSError (video_audio_filename language_version i))).
Proof.
  intros Ho Hloop Hnone.
  unfold generate_video. rewrite Ho.
  unfold generate_video_loop in *. unfold mbind, M_bind.
  rewrite for_each_app, Hloop, for_each_cons.
  unfold generate_video_row, open_AudioFileClip. unfold mbind at 1, M_bind at 1.
  cbn [fst snd]. rewrite video_filename_eq, Hnone. reflexivity.
Qed.

Lemma missing_audio_aborts_run_witness :
  generate_video always_renders
    ([(0, row_of_word "Haus")] ++ (1, row_of_word "Baum") :: [(2, row_of_word "Tisch")])
    1 "4slides" "EN_DE" (world_after_audio "EN_DE" one_row)
  = ((generate_video_loop always_renders [(0, row_of_word "Haus")] 3 1
        "4slides" "EN_DE" order_EN_DE fresh (world_after_audio "EN_DE" one_row)).1,
     Raise (OSError (video_audio_filename "EN_DE" 1))).
Proof.
  apply (missing_audio_aborts_run always_renders
           [(0, row_of_word "Haus")] [(2, row_of_word "Tisch")] 1
           (row_of_word "Baum") 1 "4slides" "EN_DE" order_EN_DE
           (world_after_audio "EN_DE" one_row)
           (generate_video_loop always_renders [(0, row_of_word "Haus")] 3 1
              "4slides" "EN_DE" order_EN_DE fresh
              (world_after_audio "EN_DE" one_row)).1
           fresh).
  - reflexivity.
  - vm_compute. reflexivity.
  - vm_compute. reflexivity.
Defined.

(** *** Rows that close no batch *)

Lemma generate_video_loop_no_emit (renders : string -> bool) (len words_per_video : Z)
    (slides_format language_version : string) (order : order_t) (w : world)
    (rest : DataFrame) :
  (forall t, renders t = true) ->
  order ∈ [order_EN_DE; order_DE_EN] ->
  slides_format ∈ ["4slides"; "2slides"] ->
  forall (batch : list (Z * Row)) (st : locals) (w0 : world),
  tracks w slides_format language_version order batch st ->
  audio_files w0 = audio_files w ->
  (forall ir, ir ∈ rest ->
     is_Some (audio_files w !! video_audio_filename language_version ir.1)) ->
  (forall ir, ir ∈ rest -> ir.1 <> len - 1) ->
  (words_per_video <= 0 \/
   distinct_words source_word (batch ++ rest) < words_per_video) ->
  exists st',
    generate_video_loop renders rest len words_per_video slides_format
      language_version order st w0 = (w0, Ok st') /\
    tracks w slides_format language_version order (batch ++ rest) st'.
Proof.
  intros Hr Ho Hf.
  induction rest as [|[i row] rest IH]; intros batch st w0 Htr Hw Haud Hlab Hfew.
  - exists st. rewrite app_nil_r. split; [reflexivity | exact Htr].
  - destruct Htr as (Hvc & Hac & Huw & Hwc).
    unfold generate_video_loop. rewrite for_each_cons.
    rewrite (generate_video_row_ok renders len words_per_video slides_format
               language_version order st i row w w0)
      by (auto; apply (Haud (i, row)), list_elem_of_here).
    cbv zeta.
    assert ((if bool_decide (german_word row ∈ unique_words st)
             then word_count st else word_count st + 1)
            = Z.of_nat (size ({[german_word row]} ∪ unique_words st))) as Hwc'.
    { rewrite add_word_size, Hwc. reflexivity. }
    rewrite Hwc', add_word_set.
    assert ({[german_word row]} ∪ unique_words st
            = list_to_set (source_word <$> (batch ++ [(i, row)]))) as Hset.
    { rewrite distinct_words_snoc, <- Huw. reflexivity. }
    assert (Z.of_nat (size ({[german_word row]} ∪ unique_words st)) <> words_per_video)
      as Hcount.
    { destruct Hfew as [Hle | Hlt].
      - assert (size ({[german_word row]} : gset string)
                <= size ({[german_word row]} ∪ unique_words st))%nat as Hsz
          by (apply subseteq_size, union_subseteq_l).
        rewrite size_singleton in Hsz. lia.
      - unfold distinct_words in Hlt.
        assert (size ({[german_word row]} ∪ unique_words st)
                <= size (list_to_set (source_word <$> (batch ++ (i, row) :: rest))
                           : gset string))%nat as Hsz.
        { apply subseteq_size. rewrite Hset.
          rewrite (cons_middle (i, row) batch rest), app_assoc.
          rewrite (fmap_app source_word (batch ++ [(i, row)]) rest).
          rewrite list_to_set_app_L. apply union_subseteq_l. }
        lia. }
    rewrite (bool_decide_eq_false_2 _ Hcount).
    rewrite (bool_decide_eq_false_2 (i = len - 1))
      by (apply (Hlab (i, row)), list_elem_of_here).
    cbn [orb].
    match goal with
    | |- context [for_each rest _ ?st1 w0] =>
        destruct (IH (batch ++ [(i, row)]) st1 w0) as (st' & Hrun & Htr')
    end.
    { repeat split; simpl.
      - rewrite fmap_app, <- Hvc. reflexivity.
      - rewrite fmap_app, <- Hac. reflexivity.
      - exact Hset. }
    { exact Hw. }
    { intros ir Hin. apply Haud, list_elem_of_further, Hin. }
    { intros ir Hin. apply Hlab, list_elem_of_further, Hin. }
    { rewrite <- app_assoc. exact Hfew. }
    exists st'. unfold generate_video_loop in Hrun. rewrite Hrun.
    rewrite <- app_assoc in Htr'. split; [reflexivity | exact Htr'].
Qed.

Lemma RangeIndex_snoc (rows : list Row) (row : Row) :
  RangeIndex (rows ++ [row]) = RangeIndex rows ++ [(Z.of_nat (length rows), row)].
Proof.
  unfold RangeIndex. rewrite imap_app. simpl. rewrite Nat.add_0_r. reflexivity.
Qed.

Lemma RangeIndex_label (rows : list Row) (ir : Z * Row) :
  ir ∈ RangeIndex rows -> 0 <= ir.1 < Z.of_nat (length rows).
Proof.
  unfold RangeIndex. intros Hin.
  apply elem_of_lookup_imap in Hin as (k & y & -> & Hk).
  apply lookup_lt_Some in Hk. simpl. lia.
Qed.

Lemma RangeIndex_length (rows : list Row) : length (RangeIndex rows) = length rows.
Proof. unfold RangeIndex. apply length_imap. Qed.

(** X9 — with zero words per video, on a table that is not empty and
    otherwise in order, [generate_video] writes nothing: no row closes a
    batch on the count, and at the last row the batch number is a division
    by zero. *)
Theorem zero_words_per_video (renders : string -> bool) (rows : list Row)
    (slides_format language_version : string) (w : world) :
  rows <> [] ->
  language_version ∈ ["EN_DE"; "DE_EN"] ->
  slides_format ∈ ["4slides"; "2slides"] ->
  (forall t, renders t = true) ->
  (forall ir, ir ∈ RangeIndex rows ->
     is_Some (audio_files w !! video_audio_filename language_version ir.1)) ->
  generate_video renders (RangeIndex rows) 0 slides_format language_version w
    = (w, Raise ZeroDivisionError).
Proof.
  intros Hne Hl Hf Hr Haud.
  destruct (orders_valid _ Hl) as (order & Ho & Hoin).
  destruct (exists_last Hne) as (rows' & row & ->).
  rewrite RangeIndex_snoc in *.
  unfold generate_video. rewrite Ho. unfold mbind, M_bind.
  rewrite length_app, RangeIndex_length. cbn [length].
  destruct (generate_video_loop_no_emit renders
              (Z.of_nat (length rows' + 1)) 0 slides_format language_version
              order w (RangeIndex rows') Hr Hoin Hf [] fresh w)
    as (st' & Hrun & Htr).
  { apply tracks_fresh. }
  { reflexivity. }
  { intros ir Hin. apply Haud, elem_of_app. left. exact Hin. }
  { intros ir Hin. apply RangeIndex_label in Hin. lia. }
  { left. lia. }
  unfold generate_video_loop in *. rewrite for_each_app, Hrun, for_each_cons.
  rewrite (generate_video_row_ok renders (Z.of_nat (length rows' + 1)) 0
             slides_format language_version order st' (Z.of_nat (length rows'))
             row w w Hr Hoin Hf eq_refl).
  2:{ apply (Haud (Z.of_nat (length rows'), row)), elem_of_app. right.
      apply list_elem_of_here. }
  cbv zeta.
  rewrite (bool_decide_eq_true_2 (Z.of_nat (length rows')
                                  = Z.of_nat (length rows' + 1) - 1)) by lia.
  rewrite orb_true_r. reflexivity.
Qed.

Lemma zero_words_per_video_witness :
  generate_video always_renders
    (RangeIndex [row_of_word "A"; row_of_word "A"; row_of_word "B";
                 row_of_word "C"; row_of_word "D"])
    0 "4slides" "EN_DE" (world_after_audio "EN_DE" five_rows)
  = (world_after_audio "EN_DE" five_rows, Raise ZeroDivisionError).
Proof.
  apply (zero_words_per_video always_renders
           [row_of_word "A"; row_of_word "A"; row_of_word "B";
            row_of_word "C"; row_of_word "D"]
           "4slides" "EN_DE" (world_after_audio "EN_DE" five_rows)).
  - discriminate.
  - apply list_elem_of_here.
  - apply list_elem_of_here.
  - reflexivity.
  - intros ir Hin. unfold RangeIndex in Hin. simpl in Hin.
    repeat (apply elem_of_cons in Hin as [-> | Hin];
            [vm_compute; eexists; reflexivity|]).
    apply elem_of_nil in Hin. contradiction.
Defined.

(** X10 — the last batch is written only at the row labelled
    [len(dataframe) - 1]: on a table none of whose labels is that number
    (a slice that kept its labels, say) and with fewer distinct words than
    [words_per_video], [generate_video] goes through every row, ends
    normally and writes no video at all. *)
Theorem unlabelled_last_row_writes_nothing (renders : string -> bool)
    (dataframe : DataFrame) (words_per_video : Z)
    (slides_format language_version : string) (w : world) :
  language_version ∈ ["EN_DE"; "DE_EN"] ->
  slides_format ∈ ["4slides"; "2slides"] ->
  (forall t, renders t = true) ->
  (forall ir, ir ∈ dataframe ->
     is_Some (audio_files w !! video_audio_filename language_version ir.1)) ->
  (forall ir, ir ∈ dataframe -> ir.1 <> Z.of_nat (length dataframe) - 1) ->
  distinct_words source_word dataframe < words_per_video ->
  generate_video renders dataframe words_per_video slides_format
    language_version w = (w, Ok tt).
Proof.
  intros Hl Hf Hr Haud Hlab Hfew.
  destruct (orders_valid _ Hl) as (order & Ho & Hoin).
  destruct (generate_video_loop_no_emit renders
              (Z.of_nat (length dataframe)) words_per_video slides_format
              language_version order w dataframe Hr Hoin Hf [] fresh w)
    as (st' & Hrun & _).
  { apply tracks_fresh. }
  { reflexivity. }
  { exact Haud. }
  { exact Hlab. }
  { right. exact Hfew. }
  unfold generate_video. rewrite Ho. unfold mbind, M_bind. rewrite Hrun.
  reflexivity.
Qed.

Lemma unlabelled_last_row_writes_nothing_witness :
  generate_video always_renders late_rows 10 "4slides" "EN_DE"
    (mkWorld (table_files always_speaks "EN_DE" late_rows ∅) [] [])
  = (mkWorld (table_files always_speaks "EN_DE" late_rows ∅) [] [], Ok tt).
Proof.
  apply (unlabelled_last_row_writes_nothing always_renders late_rows 10
           "4slides" "EN_DE"
           (mkWorld (table_files always_speaks "EN_DE" late_rows ∅) [] [])).
  - apply list_elem_of_here.
  - apply list_elem_of_here.
  - reflexivity.
  - intros ir Hin. unfold late_rows in Hin.
    repeat (apply elem_of_cons in Hin as [-> | Hin];
            [vm_compute; eexists; reflexivity|]).
    apply elem_of_nil in Hin. contradiction.
  - intros ir Hin. unfold late_rows in Hin.
    repeat (apply elem_of_cons in Hin as [-> | Hin]; [discriminate|]).
    apply elem_of_nil in Hin. contradiction.
  - vm_compute. reflexivity.
Defined.

(** C1 — the last, partial batch is not always written.  The loop takes
    the row labelled [len(dataframe) - 1] for the last row.  On the table
    labelled 0, 2, 3 with words A, B, C and ten words per video, for which
    the specification forms one batch of the three rows, the only video
    written closes at label 2 and holds the rows 0 and 2: the row labelled
    3 reaches no video.  On the table labelled 5, 6 the specification
    forms one batch of the two rows and no video is written at all.  Both
    runs end without an exception, with the audio files written before by
    [generate_audio] on the same table. *)
Theorem last_batch_lost_when_labels_are_not_positions :
  assembleBatches source_word 10 [] ∅ gap_rows = [gap_rows] /\
  generate_video always_renders gap_rows 10 "4slides" "EN_DE"
    (world_after_audio "EN_DE" gap_rows)
  = (mkWorld (audio_files (world_after_audio "EN_DE" gap_rows))
       [("combined_video_1_4slides_EN_DE.mp4",
         batch_video (world_after_audio "EN_DE" gap_rows) "4slides" "EN_DE"
           order_EN_DE [(0, row_of_word "A"); (2, row_of_word "B")])]
       (tts_calls (world_after_audio "EN_DE" gap_rows)), Ok tt) /\
  assembleBatches source_word 10 [] ∅ late_rows = [late_rows] /\
  video_files (world_after_audio "EN_DE" late_rows) = [] /\
  generate_video always_renders late_rows 10 "4slides" "EN_DE"
    (world_after_audio "EN_DE" late_rows)
  = (world_after_audio "EN_DE" late_rows, Ok tt).
Proof.
  split; [vm_compute; reflexivity|].
  split; [vm_compute; reflexivity|].
  split; [vm_compute; reflexivity|].
  split; vm_compute; reflexivity.
Qed.

(** *** Numbering when no word comes twice *)

Lemma div_mod_next (k n : Z) :
  0 < n -> 0 <= k ->
  (k `mod` n + 1 = n -> (k + 1) `div` n = k `div` n + 1 /\ (k + 1) `mod` n = 0) /\
  (k `mod` n + 1 <> n -> (k + 1) `div` n = k `div` n /\ (k + 1) `mod` n = k `mod` n + 1).
Proof.
  intros Hn Hk.
  pose proof (Z.div_mod k n ltac:(lia)) as Hdm.
  pose proof (Z.mod_pos_bound k n Hn) as Hb.
  split; intros H.
  - assert (k + 1 = n * (k `div` n + 1) + 0) as E by lia.
    split; [symmetry; apply (Z.div_unique (k + 1) n _ 0); lia
           | symmetry; apply (Z.mod_unique (k + 1) n (k `div` n + 1) 0); lia].
  - assert (k + 1 = n * (k `div` n) + (k `mod` n + 1)) as E by lia.
    split; [symmetry; apply (Z.div_unique (k + 1) n _ (k `mod` n + 1)); lia
           | symmetry; apply (Z.mod_unique (k + 1) n (k `div` n) _); lia].
Qed.

Lemma generate_video_loop_numbers (renders : string -> bool) (len words_per_video : Z)
    (slides_format language_version : string) (order : order_t) (w : world)
    (rest : DataFrame) :
  (forall t, renders t = true) ->
  order ∈ [order_EN_DE; order_DE_EN] ->
  slides_format ∈ ["4slides"; "2slides"] ->
  0 < words_per_video ->
  forall (st : locals) (w0 : world) (k : Z),
  word_count st = k `mod` words_per_video ->
  audio_files w0 = audio_files w ->
  indexed_from k rest -> 0 <= k ->
  len = k + Z.of_nat (length rest) ->
  (forall ir, ir ∈ rest ->
     is_Some (audio_files w !! video_audio_filename language_version ir.1)) ->
  NoDup (source_word <$> rest) ->
  (forall ir, ir ∈ rest -> source_word ir ∉ unique_words st) ->
  exists files,
    (generate_video_loop renders rest len words_per_video slides_format
       language_version order st w0).1
    = mkWorld (audio_files w0) (video_files w0 ++ files) (tts_calls w0) /\
    is_Ok (generate_video_loop renders rest len words_per_video slides_format
             language_version order st w0).2 = true /\
    fst <$> files =
      (fun n => video_filename n slides_format language_version)
        <$> seqZ (k `div` words_per_video + 1) (Z.of_nat (length files)).
Proof.
  intros Hr Ho Hf Hpos.
  induction rest as [|[i row] rest IH];
    intros st w0 k Hwc Hw Hidx Hk Hlen Haud Hnd Hnew.
  - exists []. split; [|split; reflexivity].
    unfold generate_video_loop. simpl. rewrite app_nil_r. destruct w0; reflexivity.
  - assert (i = k) as -> by (inversion Hidx; reflexivity).
    assert (indexed_from (k + 1) rest) as Hidx' by (inversion Hidx; assumption).
    rewrite fmap_cons in Hnd. apply NoDup_cons in Hnd as [Hrow Hnd].
    unfold generate_video_loop. rewrite for_each_cons.
    rewrite (generate_video_row_ok renders len words_per_video slides_format
               language_version order st k row w w0)
      by (auto; apply (Haud (k, row)), list_elem_of_here).
    cbv zeta.
    rewrite (bool_decide_eq_false_2 (german_word row ∈ unique_words st))
      by (apply (Hnew (k, row)), list_elem_of_here).
    rewrite Hwc.
    destruct (div_mod_next k words_per_video Hpos Hk) as [Hfull Hpart].
    destruct (bool_decide (k `mod` words_per_video + 1 = words_per_video)
              || bool_decide (k = len - 1)) eqn:Hc.
    + rewrite bool_decide_eq_false_2 by lia.
      destruct (decide (rest = [])) as [-> | Hrest].
      * eexists [_]. split; [reflexivity|]. split; reflexivity.
      * assert (k `mod` words_per_video + 1 = words_per_video) as Hcount.
        { apply orb_true_iff in Hc as [Hc|Hc]; apply bool_decide_eq_true in Hc;
            [exact Hc|].
          destruct rest; [contradiction|]. simpl in Hlen. lia. }
        destruct (Hfull Hcount) as [Hdiv Hmod].
        match goal with
        | |- context [for_each rest _ fresh ?w1] =>
            destruct (IH fresh w1 (k + 1)) as (files & Hworld & Hok & Hnames)
        end; try assumption.
        { simpl. lia. }
        { lia. }
        { simpl in Hlen. lia. }
        { intros ir Hin. apply Haud, list_elem_of_further, Hin. }
        { intros ir _. simpl. apply not_elem_of_empty. }
        unfold generate_video_loop in Hworld, Hok.
        eexists (_ :: files). rewrite Hworld.
        cbn [audio_files video_files tts_calls].
        rewrite <- app_assoc. split; [reflexivity|]. split; [exact Hok|].
        rewrite fmap_cons, Hnames, Hdiv. cbn [length fst].
        rewrite Nat2Z.inj_succ.
        rewrite (seqZ_cons (k `div` words_per_video + 1)) by lia.
        rewrite fmap_cons. f_equal. f_equal. f_equal; lia.
    + apply orb_false_iff in Hc as [Hc Hc']. apply bool_decide_eq_false in Hc, Hc'.
      destruct (Hpart Hc) as [Hdiv Hmod].
      match goal with
      | |- context [for_each rest _ ?st1 w0] =>
          destruct (IH st1 w0 (k + 1)) as (files & Hworld & Hok & Hnames)
      end; try assumption.
      { simpl. lia. }
      { lia. }
      { simpl in Hlen. lia. }
      { intros ir Hin. apply Haud, list_elem_of_further, Hin. }
      { intros ir Hin. simpl. intros Hx.
        apply elem_of_union in Hx as [Hx | Hx].
        - apply elem_of_singleton in Hx. apply Hrow.
          change (german_word row ∈ source_word <$> rest).
          rewrite <- Hx. apply list_elem_of_fmap. exists ir.
          split; [reflexivity|exact Hin].
        - apply (Hnew ir); [apply list_elem_of_further, Hin | exact Hx]. }
      unfold generate_video_loop in Hworld, Hok.
      exists files. split; [exact Hworld|]. split; [exact Hok|].
      rewrite Hnames, Hdiv. reflexivity.
Qed.

Lemma video_filename_inj (slides_format language_version : string) :
  Inj (=) (=) (fun n => video_filename n slides_format language_version).
Proof.
  intros n m H. unfold video_filename in H.
  apply string_app_inv_head in H.
  apply audio_name_inj in H as [-> _]; reflexivity.
Qed.

(** X11 — when every row has a different German word, the videos of a
    normal run are numbered 1, 2, 3, ... in the order in which they are
    written, so no two of them share a file name. *)
Theorem distinct_words_number_sequentially (renders : string -> bool)
    (rows : list Row) (words_per_video : Z)
    (slides_format language_version : string) (w : world) :
  0 < words_per_video ->
  language_version ∈ ["EN_DE"; "DE_EN"] ->
  slides_format ∈ ["4slides"; "2slides"] ->
  (forall t, renders t = true) ->
  (forall ir, ir ∈ RangeIndex rows ->
     is_Some (audio_files w !! video_audio_filename language_version ir.1)) ->
  NoDup (german_word <$> rows) ->
  exists files,
    generate_video renders (RangeIndex rows) words_per_video slides_format
      language_version w
    = (mkWorld (audio_files w) (video_files w ++ files) (tts_calls w), Ok tt) /\
    fst <$> files =
      (fun n => video_filename n slides_format language_version)
        <$> seqZ 1 (Z.of_nat (length files)) /\
    NoDup (fst <$> files).
Proof.
  intros Hpos Hl Hf Hr Haud Hnd.
  destruct (orders_valid _ Hl) as (order & Ho & Hoin).
  destruct (generate_video_loop_numbers renders
              (Z.of_nat (length (RangeIndex rows))) words_per_video slides_format
              language_version order w (RangeIndex rows) Hr Hoin Hf Hpos
              fresh w 0)
    as (files & Hworld & Hok & Hnames).
  { rewrite Z.mod_0_l by lia. reflexivity. }
  { reflexivity. }
  { apply RangeIndex_indexed. }
  { lia. }
  { lia. }
  { exact Haud. }
  { replace (source_word <$> RangeIndex rows) with (german_word <$> rows);
      [exact Hnd|].
    unfold RangeIndex. rewrite fmap_imap.
    rewrite <- (imap_const (german_word) rows). apply imap_ext. reflexivity. }
  { intros ir _. simpl. apply not_elem_of_empty. }
  exists files. split; [|split; [exact Hnames|]].
  - unfold generate_video. rewrite Ho. unfold mbind, M_bind.
    destruct (generate_video_loop _ _ _ _ _ _ _ _ w) as [w1 [st1|e]];
      simpl in Hworld, Hok; [|discriminate].
    rewrite Hworld. reflexivity.
  - rewrite Hnames. apply NoDup_fmap_2; [apply video_filename_inj|apply NoDup_seqZ].
Qed.

Lemma distinct_words_number_sequentially_witness :
  exists files,
    generate_video always_renders (RangeIndex four_words) 3 "4slides" "EN_DE"
      (mkWorld (table_files always_speaks "EN_DE" (RangeIndex four_words) ∅) [] [])
    = (mkWorld (audio_files
                  (mkWorld (table_files always_speaks "EN_DE" (RangeIndex four_words) ∅)
                     [] []))
         (video_files
            (mkWorld (table_files always_speaks "EN_DE" (RangeIndex four_words) ∅)
               [] []) ++ files)
         (tts_calls
            (mkWorld (table_files always_speaks "EN_DE" (RangeIndex four_words) ∅)
               [] [])), Ok tt) /\
    fst <$> files =
      (fun n => video_filename n "4slides" "EN_DE")
        <$> seqZ 1 (Z.of_nat (length files)) /\
    NoDup (fst <$> files).
Proof.
  apply (distinct_words_number_sequentially always_renders four_words 3
           "4slides" "EN_DE"
           (mkWorld (table_files always_speaks "EN_DE" (RangeIndex four_words) ∅)
              [] [])).
  - reflexivity.
  - apply list_elem_of_here.
  - apply list_elem_of_here.
  - reflexivity.
  - intros ir Hin. unfold RangeIndex, four_words in Hin. simpl in Hin.
    repeat (apply elem_of_cons in Hin as [-> | Hin];
            [vm_compute; eexists; reflexivity|]).
    apply elem_of_nil in Hin. contradiction.
  - vm_compute. repeat constructor; intros H;
      repeat (apply elem_of_cons in H as [H|H]; [discriminate|]);
      apply elem_of_nil in H; exact H.
Defined.

(** *** The language of every synthesis call *)

Lemma for_each_rel_in {A S} (R : world -> world -> Prop)
    `{!Reflexive R} `{!Transitive R} (xs : list A) (body : S -> A -> M S) :
  (forall s x w, x ∈ xs -> R w (body s x w).1) ->
  forall s w, R w (for_each xs body s w).1.
Proof.
  induction xs as [|x xs IH]; intros Hbody s w; simpl.
  - reflexivity.
  - apply (bind_rel R (body s x) (fun s' => for_each xs body s') w).
    + apply Hbody, list_elem_of_here.
    + intros a w1. apply IH. intros s' y w' Hy.
      apply Hbody, list_elem_of_further, Hy.
Qed.

#[local] Instance calls_from_refl (dataframe : DataFrame) :
  Reflexive (calls_from dataframe).
Proof. intros w. exists []. rewrite app_nil_r. split; [reflexivity | constructor]. Qed.

#[local] Instance calls_from_trans (dataframe : DataFrame) :
  Transitive (calls_from dataframe).
Proof.
  intros w1 w2 w3 (c1 & H1 & F1) (c2 & H2 & F2).
  exists (c1 ++ c2). rewrite H2, H1, app_assoc. split; [reflexivity|].
  apply Forall_app. split; assumption.
Qed.

Lemma order_language (order : order_t) (lc : string * column) :
  order ∈ [order_EN_DE; order_DE_EN] -> lc ∈ order -> lc.1 = language_of lc.2.
Proof.
  intros Ho Hlc. apply elem_of_two in Ho as [-> | ->];
    repeat (apply elem_of_cons in Hlc as [-> | Hlc]; [reflexivity|]);
    apply elem_of_nil in Hlc; contradiction.
Qed.

Lemma get_orders_range (language_mode : string) (process_orders : list order_t) :
  _get_orders language_mode = Ok process_orders ->
  forall order, order ∈ process_orders -> order ∈ [order_EN_DE; order_DE_EN].
Proof.
  unfold _get_orders. repeat case_bool_decide; try discriminate;
    intros [= <-] order Hin; [| |exact Hin];
    apply list_elem_of_singleton in Hin as ->; repeat constructor.
Qed.

Lemma export_order_calls (synthesize_speech : string -> string -> option Z)
    (dataframe : DataFrame) (language_version : string) (ir : Z * Row) (u : unit)
    (io : Z * order_t) (w : world) :
  ir ∈ dataframe -> io.2 ∈ [order_EN_DE; order_DE_EN] ->
  calls_from dataframe w
    (export_order synthesize_speech language_version ir.1 ir.2 u io w).1.
Proof.
  intros Hir Ho. unfold export_order. apply (bind_rel (calls_from dataframe)).
  - unfold combine_fields. apply (for_each_rel_in (calls_from dataframe)).
    intros c lc w1 Hlc. unfold combine_step, _synthesize_text, mbind, M_bind, mret, M_ret.
    assert (calls_from dataframe w1
              (mkWorld (audio_files w1) (video_files w1)
                 (tts_calls w1 ++ [(get ir.2 lc.2, lc.1)]))) as Hcall.
    { eexists [_]. split; [reflexivity|]. constructor; [|constructor].
      exists ir, lc.2. split; [exact Hir|].
      rewrite (order_language io.2 lc Ho Hlc). reflexivity. }
    destruct (synthesize_speech _ _); [destruct c|]; exact Hcall.
  - intros [a|] w1; [|reflexivity].
    exists []. unfold export. simpl. rewrite app_nil_r.
    split; [reflexivity | constructor].
Qed.

(** X17 — whatever its arguments and however it ends, [generate_audio]
    asks the speech service only for fields of rows of the table, and
    always in the language of the field: English columns with [en-US],
    German columns with [de-DE]. *)
Theorem generate_audio_calls (synthesize_speech : string -> string -> option Z)
    (dataframe : DataFrame) (language_version : string) (w : world) :
  exists calls,
    tts_calls (generate_audio synthesize_speech dataframe language_version w).1
      = tts_calls w ++ calls /\
    Forall (fun c => exists ir col,
              ir ∈ dataframe /\ c = (get ir.2 col, language_of col)) calls.
Proof.
  change (calls_from dataframe w
            (generate_audio synthesize_speech dataframe language_version w).1).
  unfold generate_audio, lift. unfold mbind at 1, M_bind at 1.
  destruct (_get_orders language_version) as [process_orders|e] eqn:Horders;
    [|reflexivity].
  apply (for_each_rel_in (calls_from dataframe)).
  intros u ir w1 Hir. unfold generate_audio_row.
  apply (for_each_rel_in (calls_from dataframe)).
  intros u' io w2 Hio. apply export_order_calls; [exact Hir|].
  apply (get_orders_range _ _ Horders).
  unfold enumerate in Hio. apply elem_of_lookup_imap in Hio as (k & o & -> & Hk).
  apply list_elem_of_lookup. exists k. exact Hk.
Qed.

End TextToSpeechRunsFacts.

(** * The sentence generator on a whole table, and the vocabulary chunks *)

Module GptTablesFacts.
Import GptLangchain GptLangchainFacts GptTables.

Lemma api_responses_ok
    (format_messages : string -> string -> string -> string)
    (chat : string -> result string) (parse : string -> result output_dict)
    (df : list VocabularyEntry) (dicts : list output_dict) :
  Forall2 (fun u d => exists response,
             chat (format_messages (word u) (word_type u) (level u)) = Ok response /\
             parse response = Ok d) df dicts ->
  forall results,
    for_in df (fun results row =>
      output_dict ← _get_api_response format_messages chat parse
                      (word row) (word_type row) (level row);
      Ok (results ++ [output_dict])) results = Ok (results ++ dicts).
Proof.
  induction 1 as [|u d df dicts (response & Hr & Hu) _ IH]; intros results; simpl.
  - rewrite app_nil_r. reflexivity.
  - rewrite (get_api_response_parsed _ _ _ _ _ _ _ Hr), Hu. simpl.
    rewrite IH, <- app_assoc. reflexivity.
Qed.

(** X12 — when the model answers and its answer parses for every entry of
    the table, [process_data] flattens the answers in the order of the table, without
    merging anything across words: if every answer has its other lists at
    least as long as [german_word], the result is the table of all their
    rows, labelled 0, 1, 2, ..., and otherwise one short answer makes the
    whole call raise [IndexError], the rows of the good answers included. *)
Theorem process_data_table
    (format_messages : string -> string -> string -> string)
    (chat : string -> result string) (parse : string -> result output_dict)
    (df : list VocabularyEntry) (dicts : list output_dict) :
  Forall2 (fun u d => exists response,
             chat (format_messages (word u) (word_type u) (level u)) = Ok response /\
             parse response = Ok d) df dicts ->
  _get_api_responses_for_dataframe format_messages chat parse df = Ok dicts /\
  process_data format_messages chat parse df =
    (if forallb covers dicts
     then Ok (Frame.RangeIndex (concat (rows_of <$> dicts)))
     else Raise IndexError) /\
  (forallb covers dicts = true ->
   length (concat (rows_of <$> dicts))
   = foldr (fun d n => (length (german_word d) + n)%nat) 0%nat dicts).
Proof.
  intros Hparse.
  assert (_get_api_responses_for_dataframe format_messages chat parse df = Ok dicts)
    as Hresp.
  { unfold _get_api_responses_for_dataframe.
    rewrite (api_responses_ok _ _ _ _ _ Hparse []). reflexivity. }
  split; [exact Hresp|]. split.
  - unfold process_data. rewrite Hresp. simpl. apply create_dataframe_spec.
  - clear. induction dicts as [|d dicts IH]; [reflexivity|].
    rewrite fmap_cons. cbn [concat foldr forallb].
    intros Hc. apply andb_true_iff in Hc as [Hd Hc].
    rewrite length_app, (IH Hc). f_equal.
    unfold covers in Hd. rewrite !andb_true_iff, !bool_decide_eq_true in Hd.
    apply rows_of_lists_length; lia.
Qed.

Lemma process_data_table_witness :
  _get_api_responses_for_dataframe echo_prompt echo_chat table_parse
    [mkEntry "gehen" "verb" "A1"; mkEntry "Haus" "noun" "A1"]
    = Ok [gehen_two; mkDict ["Haus"] ["Haus"] ["Haus"] ["Haus"]] /\
  process_data echo_prompt echo_chat table_parse
    [mkEntry "gehen" "verb" "A1"; mkEntry "Haus" "noun" "A1"] =
    (if forallb covers [gehen_two; mkDict ["Haus"] ["Haus"] ["Haus"] ["Haus"]]
     then Ok (Frame.RangeIndex
                (concat (rows_of <$> [gehen_two;
                                      mkDict ["Haus"] ["Haus"] ["Haus"] ["Haus"]])))
     else Raise IndexError) /\
  (forallb covers [gehen_two; mkDict ["Haus"] ["Haus"] ["Haus"] ["Haus"]] = true ->
   length (concat (rows_of <$> [gehen_two;
                                mkDict ["Haus"] ["Haus"] ["Haus"] ["Haus"]]))
   = foldr (fun d n => (length (german_word d) + n)%nat) 0%nat
       [gehen_two; mkDict ["Haus"] ["Haus"] ["Haus"] ["Haus"]]).
Proof.
  apply (process_data_table echo_prompt echo_chat table_parse
           [mkEntry "gehen" "verb" "A1"; mkEntry "Haus" "noun" "A1"]
           [gehen_two; mkDict ["Haus"] ["Haus"] ["Haus"] ["Haus"]]).
  constructor; [exists "gehen"; split; reflexivity|].
  constructor; [exists "Haus"; split; reflexivity|].
  constructor.
Defined.

(** *** Splitting the combined key *)

Lemma split_no_separator (c : Ascii.ascii) (s : string) :
  has_char c s = false -> split c s = [s].
Proof.
  induction s as [|a s IH]; simpl; [reflexivity|].
  intros H. apply orb_false_iff in H as [Ha Hs].
  rewrite Ha, (IH Hs). reflexivity.
Qed.

Lemma split_at_separator (c : Ascii.ascii) (a b : string) :
  has_char c a = false -> split c (a +:+ String c b) = a :: split c b.
Proof.
  induction a as [|x a IH]; simpl.
  - intros _. rewrite Ascii.eqb_refl. reflexivity.
  - intros H. apply orb_false_iff in H as [Hx Ha].
    rewrite Hx, (IH Ha). reflexivity.
Qed.

Lemma split_key (lvl wt : string) :
  has_char underscore lvl = false -> has_char underscore wt = false ->
  split underscore (lvl +:+ "_" +:+ wt) = [lvl; wt].
Proof.
  intros Hl Hw. change (lvl +:+ "_" +:+ wt) with (lvl +:+ String underscore wt).
  rewrite split_at_separator by exact Hl.
  rewrite split_no_separator by exact Hw. reflexivity.
Qed.

Lemma two_columns (pieces : list (list string)) :
  pieces <> [] -> Forall (fun p => length p = 2%nat) pieces ->
  foldr Nat.max 0%nat (length <$> pieces) = 2%nat.
Proof.
  intros Hne Hall. induction Hall as [|p pieces Hp Hall IH]; [contradiction|].
  rewrite fmap_cons. cbn [foldr]. rewrite Hp.
  destruct pieces as [|q pieces]; [reflexivity|].
  rewrite IH by discriminate. reflexivity.
Qed.

(** X13 — on a file that is not empty and whose keys all have the form
    level, underscore, word type (no other underscore), [_upload_df]
    succeeds and keeps every row with its label and word; the two columns
    it adds are the two sides of the key, so that joining them again with
    an underscore, as the scraper built the key, gives the key back. *)
Theorem upload_df_splits_keys (read_csv : string -> result (list (Z * CsvRow)))
    (df_path : string) (df : list (Z * CsvRow)) :
  read_csv df_path = Ok df ->
  df <> [] ->
  Forall (fun ir => exists lvl wt,
            csv_level_type ir.2 = lvl +:+ "_" +:+ wt /\
            has_char underscore lvl = false /\
            has_char underscore wt = false) df ->
  exists out,
    _upload_df read_csv df_path = Ok out /\
    Forall2 (fun ir o =>
               o.1 = ir.1 /\ v_word o.2 = csv_word ir.2 /\
               level_type o.2 = csv_level_type ir.2 /\
               exists wt, v_word_type o.2 = Some wt /\
                          level_type o.2 = v_level o.2 +:+ "_" +:+ wt /\
                          has_char underscore (v_level o.2) = false /\
                          has_char underscore wt = false) df out.
Proof.
  intros Hread Hne Hkeys.
  exists ((fun ir => (ir.1, split_row ir.2)) <$> df). split.
  - unfold _upload_df. rewrite Hread. simpl.
    rewrite two_columns; [reflexivity | |].
    + destruct df; [contradiction | discriminate].
    + apply Forall_fmap. eapply Forall_impl; [exact Hkeys|].
      intros ir (lvl & wt & Hk & Hl & Hw). simpl. rewrite Hk.
      rewrite split_key by assumption. reflexivity.
  - apply Forall2_fmap_r, Forall_Forall2_diag.
    eapply Forall_impl; [exact Hkeys|].
    intros ir (lvl & wt & Hk & Hl & Hw). unfold compose, split_row.
    cbn [fst snd v_word level_type v_level v_word_type]. rewrite Hk.
    rewrite split_key by assumption.
    split; [reflexivity|]. split; [reflexivity|]. split; [reflexivity|].
    exists wt. repeat split; assumption.
Qed.

Lemma upload_df_splits_keys_witness :
  exists out,
    _upload_df verbs_csv "verb.csv" = Ok out /\
    Forall2 (fun ir o =>
               o.1 = ir.1 /\ v_word o.2 = csv_word ir.2 /\
               level_type o.2 = csv_level_type ir.2 /\
               exists wt, v_word_type o.2 = Some wt /\
                          level_type o.2 = v_level o.2 +:+ "_" +:+ wt /\
                          has_char underscore (v_level o.2) = false /\
                          has_char underscore wt = false)
      [(0, mkCsv "gehen" "a1_verb"); (1, mkCsv "annehmen" "b1_verb");
       (2, mkCsv "sein" "a1_verb")] out.
Proof.
  apply (upload_df_splits_keys verbs_csv "verb.csv"
           [(0, mkCsv "gehen" "a1_verb"); (1, mkCsv "annehmen" "b1_verb");
            (2, mkCsv "sein" "a1_verb")]).
  - reflexivity.
  - discriminate.
  - repeat constructor.
    + exists "a1", "verb". repeat split.
    + exists "b1", "verb". repeat split.
    + exists "a1", "verb". repeat split.
Defined.

(** *** The chunks *)

Lemma lookup_foldl_insert {V} (f : string -> V) (keys : list string) (key : string) :
  forall m : gmap string V,
  foldl (fun m k => <[k := f k]> m) m keys !! key
  = if bool_decide (key ∈ keys) then Some (f key) else m !! key.
Proof.
  induction keys as [|k keys IH]; intros m; cbn [foldl].
  - rewrite bool_decide_eq_false_2 by apply not_elem_of_nil. reflexivity.
  - rewrite IH. case_bool_decide as Hin.
    + rewrite bool_decide_eq_true_2 by (apply list_elem_of_further, Hin). reflexivity.
    + destruct (decide (key = k)) as [-> | Hne].
      * rewrite bool_decide_eq_true_2 by apply list_elem_of_here.
        apply lookup_insert_eq.
      * rewrite bool_decide_eq_false_2
          by (intros H; apply elem_of_cons in H as [H|H]; auto).
        apply lookup_insert_ne. congruence.
Qed.

(** X14 — after a call of [get_chunks] that could read its file, each of
    the five keys of the word type gives back, through [get_df_level],
    exactly the rows of the file with that key, in the order and with the
    labels of the file, whatever was stored under the key before; every
    other key answers as before the call, a [KeyError] if it was never
    stored. *)
Theorem get_chunks_then_get_df_level
    (read_csv : string -> result (list (Z * CsvRow)))
    (word_type df_path : string) (chunks : gmap string (list (Z * VocabularyRow)))
    (df : list (Z * VocabularyRow)) :
  _upload_df read_csv df_path = Ok df ->
  exists chunks',
    get_chunks read_csv word_type df_path chunks = Ok chunks' /\
    (forall key, key ∈ filter_through word_type ->
       get_df_level key chunks' = Chunk (subset key df)) /\
    (forall key, key ∉ filter_through word_type ->
       get_df_level key chunks' = get_df_level key chunks) /\
    (forall key, key ∉ filter_through word_type -> chunks !! key = None ->
       get_df_level key chunks' = KeyError key).
Proof.
  intros Hup. eexists. split.
  { unfold get_chunks. rewrite Hup. reflexivity. }
  assert (forall key,
    foldl (fun chunks0 filtering => <[filtering := subset filtering df]> chunks0)
      chunks (filter_through word_type) !! key
    = if bool_decide (key ∈ filter_through word_type)
      then Some (subset key df) else chunks !! key) as Hlook.
  { intros key. apply (lookup_foldl_insert (fun k => subset k df)). }
  split; [|split].
  - intros key Hin. unfold get_df_level. rewrite Hlook.
    rewrite bool_decide_eq_true_2 by exact Hin. reflexivity.
  - intros key Hout. unfold get_df_level. rewrite Hlook.
    rewrite bool_decide_eq_false_2 by exact Hout. reflexivity.
  - intros key Hout Hnone. unfold get_df_level. rewrite Hlook.
    rewrite bool_decide_eq_false_2 by exact Hout. rewrite Hnone. reflexivity.
Qed.

Lemma get_chunks_then_get_df_level_witness :
  exists chunks',
    get_chunks verbs_csv "verb" "verb.csv" ∅ = Ok chunks' /\
    (forall key, key ∈ filter_through "verb" ->
       get_df_level key chunks'
       = Chunk (subset key [(0, split_row (mkCsv "gehen" "a1_verb"));
                            (1, split_row (mkCsv "annehmen" "b1_verb"));
                            (2, split_row (mkCsv "sein" "a1_verb"))])) /\
    (forall key, key ∉ filter_through "verb" ->
       get_df_level key chunks' = get_df_level key ∅) /\
    (forall key, key ∉ filter_through "verb" ->
       (∅ : gmap string (list (Z * VocabularyRow))) !! key = None ->
       get_df_level key chunks' = KeyError key).
Proof.
  apply (get_chunks_then_get_df_level verbs_csv "verb" "verb.csv" ∅
           [(0, split_row (mkCsv "gehen" "a1_verb"));
            (1, split_row (mkCsv "annehmen" "b1_verb"));
            (2, split_row (mkCsv "sein" "a1_verb"))]).
  reflexivity.
Defined.

End GptTablesFacts.

(** * The scraper's dictionary *)

Module SeleniumScraperFacts.
Import SeleniumScraper.

Lemma level_key_in_filter_through (lvl word_type : string) :
  lvl ∈ levels -> lvl +:+ "_" +:+ word_type ∈ GptTables.filter_through word_type.
Proof.
  intros H. unfold levels in H.
  repeat (apply elem_of_cons in H as [-> | H]; [repeat constructor|]).
  apply elem_of_nil in H. contradiction.
Qed.

Lemma level_step_lookup (visit : Z -> level_visit) (word_type : string)
    (d0 d1 : gmap string string) (jl : Z * string) (word : string) :
  level_step visit word_type d0 jl = Returned d1 ->
  d1 !! word =
    match visit jl.1 with
    | Scraped list_words =>
        if bool_decide (word ∈ list_words)
        then Some (jl.2 +:+ "_" +:+ word_type) else d0 !! word
    | _ => d0 !! word
    end.
Proof.
  unfold level_step. destruct (visit jl.1) as [e|e|list_words].
  - discriminate.
  - destruct (caught e); [intros [= <-]; reflexivity | discriminate].
  - intros [= <-].
    pose proof (GptTablesFacts.lookup_foldl_insert
                  (fun _ : string => jl.2 +:+ "_" +:+ word_type) list_words word ∅)
      as Hd.
    cbn [nth]. destruct (bool_decide (word ∈ list_words)).
    + apply lookup_union_Some_l, Hd.
    + apply lookup_union_r, Hd.
Qed.

Lemma for_levels_lookup (visit : Z -> level_visit) (word_type word : string)
    (turns : list (Z * string)) :
  forall d0 d,
  for_levels turns (level_step visit word_type) d0 = Returned d ->
  d !! word =
    match last_level visit word turns with
    | Some lvl => Some (lvl +:+ "_" +:+ word_type)
    | None => d0 !! word
    end.
Proof.
  induction turns as [|jl turns IH]; intros d0 d Hrun; simpl in *.
  - injection Hrun as <-. reflexivity.
  - destruct (level_step visit word_type d0 jl) as [d1|e] eqn:Hstep; [|discriminate].
    rewrite (IH d1 d Hrun).
    destruct (last_level visit word turns); [reflexivity|].
    rewrite (level_step_lookup visit word_type d0 d1 jl word Hstep).
    destruct (visit jl.1) as [e|e|list_words]; try reflexivity.
    destruct (bool_decide (word ∈ list_words)); reflexivity.
Qed.

Lemma last_level_in (visit : Z -> level_visit) (word lvl : string)
    (turns : list (Z * string)) :
  last_level visit word turns = Some lvl -> lvl ∈ snd <$> turns.
Proof.
  induction turns as [|jl turns IH]; simpl; [discriminate|].
  destruct (last_level visit word turns) as [l|].
  - intros [= <-]. apply list_elem_of_further, IH. reflexivity.
  - destruct (visit jl.1) as [e|e|list_words]; try discriminate.
    destruct (bool_decide (word ∈ list_words)); [|discriminate].
    intros [= <-]. apply list_elem_of_here.
Qed.

(** X15 — when [_perform_scraping_within_levels] returns, a word is in the
    dictionary exactly if some level listed it, and it is kept once, under
    the key of the last level (in the order a1, a2, b1, b2, c1) that listed
    it: an earlier level of the same word is overwritten.  Every value of
    the dictionary is one of the five keys that [get_chunks] filters on
    for the word type. *)
Theorem scraped_words_keep_last_level (visit : Z -> level_visit)
    (word_type : string) (words_dict : gmap string string) :
  _perform_scraping_within_levels visit word_type = Returned words_dict ->
  (forall word,
     words_dict !! word
     = (fun lvl => lvl +:+ "_" +:+ word_type)
         <$> last_level visit word (zip (seqZ 2 5) levels)) /\
  (forall word value, words_dict !! word = Some value ->
     value ∈ GptTables.filter_through word_type).
Proof.
  intros Hrun.
  assert (forall word,
     words_dict !! word
     = (fun lvl => lvl +:+ "_" +:+ word_type)
         <$> last_level visit word (zip (seqZ 2 5) levels)) as Hlook.
  { intros word. unfold _perform_scraping_within_levels in Hrun.
    rewrite (for_levels_lookup visit word_type word _ ∅ words_dict Hrun).
    destruct (last_level visit word _); [reflexivity | apply lookup_empty]. }
  split; [exact Hlook|].
  intros word value Hv. rewrite Hlook in Hv.
  destruct (last_level visit word (zip (seqZ 2 5) levels)) as [lvl|] eqn:Hl;
    [|discriminate].
  injection Hv as <-. apply level_key_in_filter_through.
  apply last_level_in in Hl. exact Hl.
Qed.

Lemma scraped_words_keep_last_level_witness :
  (forall word,
     (<["annehmen" := "b1_verb"]> (<["gehen" := "b1_verb"]>
        (<["sein" := "a1_verb"]> (∅ : gmap string string)))) !! word
     = (fun lvl => lvl +:+ "_" +:+ "verb")
         <$> last_level sample_visit word (zip (seqZ 2 5) levels)) /\
  (forall word value,
     (<["annehmen" := "b1_verb"]> (<["gehen" := "b1_verb"]>
        (<["sein" := "a1_verb"]> (∅ : gmap string string)))) !! word = Some value ->
     value ∈ GptTables.filter_through "verb").
Proof.
  apply (scraped_words_keep_last_level sample_visit "verb").
  vm_compute. reflexivity.
Defined.

Lemma for_levels_app {A S} (xs ys : list A) (body : S -> A -> outcome S) (s : S) :
  for_levels (xs ++ ys) body s =
    match for_levels xs body s with
    | Returned s' => for_levels ys body s'
    | Raised e => Raised e
    end.
Proof.
  revert s. induction xs as [|x xs IH]; intros s; simpl; [reflexivity|].
  destruct (body s x); [apply IH | reflexivity].
Qed.

Lemma for_levels_goes_on (visit : Z -> level_visit) (word_type : string)
    (turns : list (Z * string)) :
  Forall (fun jl => goes_on (visit jl.1)) turns ->
  forall d0, exists d, for_levels turns (level_step visit word_type) d0 = Returned d.
Proof.
  induction 1 as [|jl turns Hjl _ IH]; intros d0; simpl; [eauto|].
  unfold level_step at 1. unfold goes_on in Hjl.
  destruct (visit jl.1) as [e|e|list_words]; [contradiction | rewrite Hjl |]; apply IH.
Qed.

(** X18 — only three exceptions of the scraping are skipped over.  When, at
    some level, a click raises, or the scraping raises anything else (a
    timeout, say), [_perform_scraping_within_levels] raises that exception
    and returns no dictionary: the words of the levels already scraped are
    lost with it. *)
Theorem scraping_failure_loses_dictionary (visit : Z -> level_visit)
    (word_type : string) (before after : list (Z * string)) (j : Z) (lvl : string)
    (e : browser_exn) :
  zip (seqZ 2 5) levels = before ++ (j, lvl) :: after ->
  Forall (fun jl => goes_on (visit jl.1)) before ->
  visit j = ClickRaises e \/ (visit j = ScrapeRaises e /\ caught e = false) ->
  _perform_scraping_within_levels visit word_type = Raised e.
Proof.
  intros Hturns Hbefore Hfail. unfold _perform_scraping_within_levels.
  rewrite Hturns, for_levels_app.
  destruct (for_levels_goes_on visit word_type before Hbefore ∅) as [d ->].
  simpl. unfold level_step. cbn [fst].
  destruct Hfail as [-> | [-> ->]]; reflexivity.
Qed.

Lemma scraping_failure_loses_dictionary_witness :
  _perform_scraping_within_levels stuck_visit "verb" = Raised TimeoutException.
Proof.
  apply (scraping_failure_loses_dictionary stuck_visit "verb"
           [(2, "a1"); (3, "a2")] [(5, "b2"); (6, "c1")] 4 "b1" TimeoutException).
  - reflexivity.
  - repeat constructor.
  - left. reflexivity.
Defined.

End SeleniumScraperFacts.

(** * Publishing *)

Module YoutubePublishFacts.
Import YoutubePublish.

(** X16 — the thumbnail file is opened only after the video has been
    sent: when the video file is there, the platform accepts it and
    returns an id, but the thumbnail file is missing, [upload_video] raises
    [FileNotFoundError] for the thumbnail having sent exactly one request,
    the upload of the video; no thumbnail is set and the video is in no
    playlist. *)
Theorem missing_thumbnail_after_upload (description : string) (tags : list string)
    (file_exists : string -> bool) (platform : request -> api_exn + option string)
    (video_file_path title thumbnail_path playlist_id visibility video_id : string)
    (log : list request) :
  file_exists video_file_path = true ->
  file_exists thumbnail_path = false ->
  platform (VideosInsert (mkBody "27" title description tags "en" visibility false)
              video_file_path) = inr (Some video_id) ->
  upload_video description tags file_exists platform video_file_path title
    thumbnail_path playlist_id visibility log
  = (log ++ [VideosInsert (mkBody "27" title description tags "en" visibility false)
               video_file_path],
     inl (FileNotFoundError thumbnail_path)).
Proof.
  intros Hv Ht Hp. unfold upload_video, bind, MediaFileUpload, execute, get_id.
  rewrite Hv, Hp, Ht. reflexivity.
Qed.

Lemma missing_thumbnail_after_upload_witness :
  upload_video "Learn German" ["german"] only_video accepting_platform
    "video.mp4" "Ten verbs" "thumbnail.png" "PL1" "public" []
  = ([] ++ [VideosInsert (mkBody "27" "Ten verbs" "Learn German" ["german"] "en"
                            "public" false) "video.mp4"],
     inl (FileNotFoundError "thumbnail.png")).
Proof.
  apply (missing_thumbnail_after_upload "Learn German" ["german"] only_video
           accepting_platform "video.mp4" "Ten verbs" "thumbnail.png" "PL1"
           "public" "v1" []).
  - reflexivity.
  - reflexivity.
  - reflexivity.
Defined.

(** X19 — [upload_video] never returns normally half done: if it returns,
    both files could be opened and exactly three requests were sent, in
    this order: the upload of the video with the given title and
    visibility, the thumbnail and the playlist entry, the last two for the
    id that the platform returned for the upload. *)
Theorem upload_video_returns_complete (description : string) (tags : list string)
    (file_exists : string -> bool) (platform : request -> api_exn + option string)
    (video_file_path title thumbnail_path playlist_id visibility : string)
    (log log' : list request) :
  upload_video description tags file_exists platform video_file_path title
    thumbnail_path playlist_id visibility log = (log', inr tt) ->
  exists video_id,
    platform (VideosInsert (mkBody "27" title description tags "en" visibility false)
                video_file_path) = inr (Some video_id) /\
    file_exists video_file_path = true /\ file_exists thumbnail_path = true /\
    log' = log ++
      [VideosInsert (mkBody "27" title description tags "en" visibility false)
         video_file_path;
       ThumbnailsSet video_id thumbnail_path;
       PlaylistItemsInsert playlist_id video_id].
Proof.
  unfold upload_video, bind, MediaFileUpload, execute, get_id, ret.
  destruct (file_exists video_file_path) eqn:Hv; [|discriminate].
  destruct (platform (VideosInsert _ _)) as [e|[video_id|]] eqn:Hp; try discriminate.
  destruct (file_exists thumbnail_path) eqn:Ht; [|discriminate].
  destruct (platform (ThumbnailsSet _ _)) as [e|r1]; [discriminate|].
  destruct (platform (PlaylistItemsInsert _ _)) as [e|r2]; [discriminate|].
  intros [= <-]. exists video_id. rewrite <- !app_assoc. repeat split.
Qed.

Lemma upload_video_returns_complete_witness :
  exists video_id,
    accepting_platform
      (VideosInsert (mkBody "27" "Ten verbs" "Learn German" ["german"] "en"
                       "public" false) "video.mp4") = inr (Some video_id) /\
    (fun _ : string => true) "video.mp4" = true /\
    (fun _ : string => true) "thumbnail.png" = true /\
    [VideosInsert (mkBody "27" "Ten verbs" "Learn German" ["german"] "en"
                     "public" false) "video.mp4";
     ThumbnailsSet "v1" "thumbnail.png"; PlaylistItemsInsert "PL1" "v1"]
    = [] ++
      [VideosInsert (mkBody "27" "Ten verbs" "Learn German" ["german"] "en"
                       "public" false) "video.mp4";
       ThumbnailsSet video_id "thumbnail.png";
       PlaylistItemsInsert "PL1" video_id].
Proof.
  apply (upload_video_returns_complete "Learn German" ["german"]
           (fun _ => true) accepting_platform "video.mp4" "Ten verbs"
           "thumbnail.png" "PL1" "public" []).
  reflexivity.
Defined.

End YoutubePublishFacts.
